(** * NoteMind: chat-session pagination, AI-response orchestration,
      context building and audio-job polling

    A shallow embedding of the orchestration routines of
    [src/pages/Index.tsx] (session store, message store, context builder,
    AI response orchestrator) and of the audio polling effect of the note
    editor, followed by the properties the specification states about them.

    Conventions of the embedding.
    - React state hooks become the fields of one record, [AppState]; a
      callback is a function from the current state to the state it leaves
      behind.  A callback made by [useCallback] reads the hooks of the render
      it was created in: that render's state is its [closure] argument, and
      a callback it calls shares it.  A functional update
      [setX(prev => f prev)] is [f] applied to the field's current value.
    - Every answer of the outside world (a Supabase query, the edge
      function, the clock, [crypto.randomUUID]) is an argument of the
      callback that consumes it.
    - JavaScript strings are [string]; [s.length] is [String.length] and
      [s.substring(0, n)] is [substring 0 n s].  ISO timestamps are compared
      as instants, so they are integers.
    - [x || d] and [if (x)] on a nullable value are written with the
      helpers below: [null], [undefined], the empty string and [false] are
      the falsy values that occur. *)

From Stdlib Require Import ZArith String Ascii.
From stdpp Require Import base option list sorting strings pretty gmap.

Open Scope string_scope.

(** ** JavaScript helpers *)

(** The line feed of the template literals. *)
Definition nl : string := String (ascii_of_nat 10) "".

(** Truthiness of a nullable string: [null], [undefined] and [""] are falsy. *)
Definition truthy (o : option string) : bool :=
  match o with
  | Some s => negb (String.eqb s "")
  | None => false
  end.

(** [o || d] for a nullable string. *)
Definition strOrElse (o : option string) (d : string) : string :=
  match o with
  | Some s => if String.eqb s "" then d else s
  | None => d
  end.

(** [o || undefined] for a nullable string. *)
Definition strOrUndefined (o : option string) : option string :=
  if truthy o then o else None.

(** [o || []] and [o ?? []] for a nullable array (an array is never falsy). *)
Definition arrOrElse {A} (o : option (list A)) : list A := default [] o.

(** [o || false] for a nullable boolean. *)
Definition boolOrFalse (o : option bool) : bool := default false o.

(** [ids.includes(x)] *)
Definition includes (ids : list string) (x : string) : bool :=
  bool_decide (x ∈ ids).

(** [xs.slice().reverse().find(p)]: the last element satisfying [p]. *)
Definition findLast {A} (p : A → bool) (xs : list A) : option A :=
  List.find p (reverse xs).

(** [xs.join(sep)] *)
Definition join (sep : string) (xs : list string) : string :=
  String.concat sep xs.

(** [s.trim()], over the white space of [String.prototype.trim] that fits
    in a byte: space, tab to carriage return, no-break space. *)
Definition isSpace (c : ascii) : bool :=
  let n := nat_of_ascii c in
  (n =? 32)%nat || ((9 <=? n)%nat && (n <=? 13)%nat) || (n =? 160)%nat.

Fixpoint trimStart (s : string) : string :=
  match s with
  | String c s' => if isSpace c then trimStart s' else s
  | EmptyString => EmptyString
  end.

Definition trim (s : string) : string :=
  String.rev (trimStart (String.rev (trimStart s))).

(** The second piece of [s.split(',')]: what lies between the first comma
    and the next one, [undefined] when [s] has no comma. *)
Fixpoint untilComma (s : string) : string :=
  match s with
  | String c s' => if Ascii.eqb c "," then "" else String c (untilComma s')
  | EmptyString => ""
  end.

Fixpoint splitCommaSecond (s : string) : option string :=
  match s with
  | String c s' => if Ascii.eqb c "," then Some (untilComma s') else splitCommaSecond s'
  | EmptyString => None
  end.

(** A stable insertion sort, as [Array.prototype.sort] is stable:
    [before a b] says that [a] must come strictly before [b] (the
    comparator is negative on [(a, b)]); elements are inserted from the
    right, each one in front of those it ties with. *)
Fixpoint insertSorted {A} (before : A → A → bool) (x : A) (xs : list A) : list A :=
  match xs with
  | [] => [x]
  | y :: ys => if before y x
               then y :: insertSorted before x ys
               else x :: xs
  end.

Definition stableSort {A} (before : A → A → bool) (xs : list A) : list A :=
  foldr (insertSorted before) [] xs.

(** ** Data model *)

Inductive Role := role_user | role_assistant.

Global Instance Role_eq_dec : EqDecision Role.
Proof. solve_decision. Defined.

(** [interface Message] of [types/Class]. *)
Record Message := mkMessage {
  m_id : string;
  m_content : string;
  m_role : Role;
  m_timestamp : Z;
  m_isError : option bool;
  m_originalUserMessageContent : option string;
  m_imageUrl : option string;
  m_imageMimeType : option string;
  m_attachedDocumentIds : option (list string);
  m_attachedNoteIds : option (list string);
}.

(** A row of the remote table [chat_messages], as a query returns it. *)
Record MessageRow := mkMessageRow {
  r_id : string;
  r_session_id : string;
  r_content : string;
  r_role : Role;
  r_timestamp : option Z;
  r_is_error : option bool;
  r_attached_document_ids : option (list string);
  r_attached_note_ids : option (list string);
  r_image_url : option string;
  r_image_mime_type : option string;
}.

(** [interface ChatSession] of [Index.tsx]. *)
Record ChatSession := mkChatSession {
  s_id : string;
  s_title : string;
  s_created_at : Z;
  s_updated_at : Z;
  s_last_message_at : Z;
  s_document_ids : list string;
}.

(** A row of the remote table [chat_sessions]. *)
Record SessionRow := mkSessionRow {
  sr_id : string;
  sr_title : string;
  sr_created_at : Z;
  sr_updated_at : Z;
  sr_last_message_at : Z;
  sr_document_ids : option (list string);
}.

(** The fields of [Document] (declared in [types/Document], which is not
    among the sources) that [Index.tsx] reads. *)
Record Document := mkDocument {
  d_id : string;
  d_title : string;
  d_file_name : string;
  d_type : string;
  d_file_url : string;
  d_content_extracted : option string;
  d_processing_status : option string;
  d_processing_error : option string;
}.

(** The fields of [Note] (declared in [types/Note], which is not among the
    sources) that [buildRichContext] reads. *)
Record Note := mkNote {
  n_id : string;
  n_title : string;
  n_category : string;
  n_content : option string;
  n_aiSummary : option string;
  n_tags : option (list string);
}.

Record User := mkUser { u_id : string }.

(** What a Supabase call resolves to: [{ data, error }]. *)
Inductive Response (A : Type) :=
| Ok (data : A)
| Failed (message : string).
Arguments Ok {A} data.
Arguments Failed {A} message.

(** Pagination constants. *)
Definition CHAT_SESSIONS_PER_PAGE : nat := 10.
Definition CHAT_MESSAGES_PER_PAGE : nat := 20.

(** ** Context builder *)

(** The two truncation bounds and the ellipsis marker. *)
Definition DOCUMENT_LIMIT : nat := 2000.
Definition NOTE_LIMIT : nat := 1500.
Definition ELLIPSIS : string := "...".

(** [s.length > limit ? s.substring(0, limit) + '...' : s] *)
Definition truncated (limit : nat) (s : string) : string :=
  if (limit <? String.length s)%nat
  then substring 0 limit s ++ ELLIPSIS
  else s.

(** The value interpolated after [Content: ] for a document that has
    extracted content, [None] when [doc.content_extracted] is falsy. *)
Definition documentContent (doc : Document) : option string :=
  if truthy (d_content_extracted doc)
  then Some (truncated DOCUMENT_LIMIT (strOrElse (d_content_extracted doc) ""))
  else None.

(** The value interpolated after [Content: ] for a note, [None] when
    [note.content] is falsy (the line is then left out). *)
Definition noteContent (note : Note) : option string :=
  if truthy (n_content note)
  then Some (truncated NOTE_LIMIT (strOrElse (n_content note) ""))
  else None.

(** The [Type: ] line. *)
Definition typeLine (doc : Document) : string :=
  if String.eqb (d_type doc) "image" then "Type: Image" ++ nl
  else if String.eqb (d_type doc) "text" then "Type: Text Document" ++ nl
  else "".

(** The [Content] line of a document. *)
Definition contentLine (doc : Document) : string :=
  let isImage := String.eqb (d_type doc) "image" in
  match documentContent doc with
  | Some content =>
      if isImage
      then "Content (Image Description): " ++ content ++ nl
      else "Content: " ++ content ++ nl
  | None =>
      let completed :=
        match d_processing_status doc with
        | Some s => String.eqb s "completed"
        | None => false
        end in
      if isImage && negb completed
      then "Content: Image processing "
             ++ strOrElse (d_processing_status doc) "pending"
             ++ ". No extracted text yet." ++ nl
      else if isImage && completed
      then "Content: Image analysis completed, but no text or detailed description was extracted." ++ nl
      else "Content: No content extracted or available." ++ nl
  end.

(** One round of [selectedDocs.forEach]. *)
Definition appendDocument (context : string) (doc : Document) : string :=
  let context := context ++ "Title: " ++ d_title doc ++ nl in
  let context := context ++ "File: " ++ d_file_name doc ++ nl in
  let context := context ++ typeLine doc in
  let context := context ++ contentLine doc in
  context ++ nl.

(** One round of [selectedNotes.forEach]. *)
Definition appendNote (context : string) (note : Note) : string :=
  let context := context ++ "Title: " ++ n_title note ++ nl in
  let context := context ++ "Category: " ++ n_category note ++ nl in
  let context :=
    match noteContent note with
    | Some content => context ++ "Content: " ++ content ++ nl
    | None => context
    end in
  let context :=
    if truthy (n_aiSummary note)
    then context ++ "AI Summary: " ++ strOrElse (n_aiSummary note) "" ++ nl
    else context in
  let context :=
    if (0 <? length (arrOrElse (n_tags note)))%nat
    then context ++ "Tags: " ++ join ", " (arrOrElse (n_tags note)) ++ nl
    else context in
  context ++ nl.

Definition selectDocuments (documentIdsToInclude : option (list string))
    (allDocuments : option (list Document)) : list Document :=
  List.filter (λ doc, includes (arrOrElse documentIdsToInclude) (d_id doc))
              (arrOrElse allDocuments).

Definition selectNotes (noteIdsToInclude : option (list string))
    (allNotes : option (list Note)) : list Note :=
  List.filter (λ note, includes (arrOrElse noteIdsToInclude) (n_id note))
              (arrOrElse allNotes).

(** The value of [context] when [buildRichContext] returns. *)
Definition contextText
    (documentIdsToInclude noteIdsToInclude : option (list string))
    (allDocuments : option (list Document)) (allNotes : option (list Note))
    : string :=
  let selectedDocs := selectDocuments documentIdsToInclude allDocuments in
  let selectedNotes := selectNotes noteIdsToInclude allNotes in
  let context := "" in
  let context :=
    if (0 <? length selectedDocs)%nat
    then fold_left appendDocument selectedDocs (context ++ "DOCUMENTS:" ++ nl)
    else context in
  let context :=
    if (0 <? length selectedNotes)%nat
    then fold_left appendNote selectedNotes (context ++ "NOTES:" ++ nl)
    else context in
  context.

(** ** Application state *)

(** A turn of the history sent to the [gemini-chat] edge function. *)
Inductive Part :=
| TextPart (text : string)
| InlineData (mimeType : string) (data : option string).

Record Turn := mkTurn { t_role : string; t_parts : list Part }.

(** The remote calls and flag writes a callback performs, in the order it
    performs them (a ghost trace: the program does not read it). *)
Inductive Effect :=
| SetIsSubmittingUserMessage (b : bool)
| SetIsAILoading (b : bool)
| AuthGetUser
| SelectChatSessions (userId : string) (count : nat)
| InsertChatSession (userId : string) (documentIds : list string)
| DeleteChatSessionRow (id userId : string)
| SelectChatMessages (sessionId : string) (olderThan : option Z)
| InsertChatMessage (sessionId : string) (role : Role) (content : string)
| UpdateChatMessage (id sessionId content : string)
| UpdateChatSession (id : string) (documentIds : list string)
| SelectDocument (id : string)
| InvokeGeminiChat (sessionId : string) (chatHistory : list Turn).

(** The state hooks of [Index] and of [useAppData] that the chat flow
    touches, the signed-in [user] of [useAuth], and two ghost fields: the
    trace of effects and the lines [buildRichContext] writes to the console. *)
Record AppState := mkAppState {
  user : option User;
  chatSessions : list ChatSession;
  activeChatSessionId : option string;
  chatMessages : list Message;
  selectedDocumentIds : list string;
  isSubmittingUserMessage : bool;
  isAILoading : bool;
  chatSessionsLoadedCount : nat;
  hasMoreChatSessions : bool;
  hasMoreMessages : bool;
  documents : list Document;
  notes : list Note;
  effects : list Effect;
  console : list string;
}.

Definition emit (e : Effect) (st : AppState) : AppState :=
  mkAppState (user st) (chatSessions st) (activeChatSessionId st)
    (chatMessages st) (selectedDocumentIds st) (isSubmittingUserMessage st)
    (isAILoading st) (chatSessionsLoadedCount st) (hasMoreChatSessions st)
    (hasMoreMessages st) (documents st) (notes st) (effects st ++ [e])%list
    (console st).

Definition consoleLog (line : string) (st : AppState) : AppState :=
  mkAppState (user st) (chatSessions st) (activeChatSessionId st)
    (chatMessages st) (selectedDocumentIds st) (isSubmittingUserMessage st)
    (isAILoading st) (chatSessionsLoadedCount st) (hasMoreChatSessions st)
    (hasMoreMessages st) (documents st) (notes st) (effects st)
    (console st ++ [line])%list.

Definition setChatSessions (f : list ChatSession → list ChatSession)
    (st : AppState) : AppState :=
  mkAppState (user st) (f (chatSessions st)) (activeChatSessionId st)
    (chatMessages st) (selectedDocumentIds st) (isSubmittingUserMessage st)
    (isAILoading st) (chatSessionsLoadedCount st) (hasMoreChatSessions st)
    (hasMoreMessages st) (documents st) (notes st) (effects st) (console st).

Definition setActiveChatSessionId (v : option string) (st : AppState) : AppState :=
  mkAppState (user st) (chatSessions st) v
    (chatMessages st) (selectedDocumentIds st) (isSubmittingUserMessage st)
    (isAILoading st) (chatSessionsLoadedCount st) (hasMoreChatSessions st)
    (hasMoreMessages st) (documents st) (notes st) (effects st) (console st).

Definition setChatMessages (f : list Message → list Message)
    (st : AppState) : AppState :=
  mkAppState (user st) (chatSessions st) (activeChatSessionId st)
    (f (chatMessages st)) (selectedDocumentIds st) (isSubmittingUserMessage st)
    (isAILoading st) (chatSessionsLoadedCount st) (hasMoreChatSessions st)
    (hasMoreMessages st) (documents st) (notes st) (effects st) (console st).

Definition setSelectedDocumentIds (v : list string) (st : AppState) : AppState :=
  mkAppState (user st) (chatSessions st) (activeChatSessionId st)
    (chatMessages st) v (isSubmittingUserMessage st)
    (isAILoading st) (chatSessionsLoadedCount st) (hasMoreChatSessions st)
    (hasMoreMessages st) (documents st) (notes st) (effects st) (console st).

Definition setIsSubmittingUserMessage (v : bool) (st : AppState) : AppState :=
  emit (SetIsSubmittingUserMessage v)
    (mkAppState (user st) (chatSessions st) (activeChatSessionId st)
       (chatMessages st) (selectedDocumentIds st) v
       (isAILoading st) (chatSessionsLoadedCount st) (hasMoreChatSessions st)
       (hasMoreMessages st) (documents st) (notes st) (effects st) (console st)).

Definition setIsAILoading (v : bool) (st : AppState) : AppState :=
  emit (SetIsAILoading v)
    (mkAppState (user st) (chatSessions st) (activeChatSessionId st)
       (chatMessages st) (selectedDocumentIds st) (isSubmittingUserMessage st)
       v (chatSessionsLoadedCount st) (hasMoreChatSessions st)
       (hasMoreMessages st) (documents st) (notes st) (effects st) (console st)).

Definition setChatSessionsLoadedCount (f : nat → nat) (st : AppState) : AppState :=
  mkAppState (user st) (chatSessions st) (activeChatSessionId st)
    (chatMessages st) (selectedDocumentIds st) (isSubmittingUserMessage st)
    (isAILoading st) (f (chatSessionsLoadedCount st)) (hasMoreChatSessions st)
    (hasMoreMessages st) (documents st) (notes st) (effects st) (console st).

Definition setHasMoreChatSessions (v : bool) (st : AppState) : AppState :=
  mkAppState (user st) (chatSessions st) (activeChatSessionId st)
    (chatMessages st) (selectedDocumentIds st) (isSubmittingUserMessage st)
    (isAILoading st) (chatSessionsLoadedCount st) v
    (hasMoreMessages st) (documents st) (notes st) (effects st) (console st).

Definition setHasMoreMessages (v : bool) (st : AppState) : AppState :=
  mkAppState (user st) (chatSessions st) (activeChatSessionId st)
    (chatMessages st) (selectedDocumentIds st) (isSubmittingUserMessage st)
    (isAILoading st) (chatSessionsLoadedCount st) (hasMoreChatSessions st)
    v (documents st) (notes st) (effects st) (console st).

Definition setDocuments (f : list Document → list Document)
    (st : AppState) : AppState :=
  mkAppState (user st) (chatSessions st) (activeChatSessionId st)
    (chatMessages st) (selectedDocumentIds st) (isSubmittingUserMessage st)
    (isAILoading st) (chatSessionsLoadedCount st) (hasMoreChatSessions st)
    (hasMoreMessages st) (f (documents st)) (notes st) (effects st) (console st).

(** [buildRichContext]: builds the context, writes it to the console and
    returns it. *)
Definition buildRichContext
    (documentIdsToInclude noteIdsToInclude : option (list string))
    (allDocuments : option (list Document)) (allNotes : option (list Note))
    (st : AppState) : string * AppState :=
  let context :=
    contextText documentIdsToInclude noteIdsToInclude allDocuments allNotes in
  (context, consoleLog ("Generated Context: " ++ context) st).

(** ** Session store *)

(** The object [loadChatSessions] and [createNewChatSession] build from a
    row. *)
Definition formatSession (session : SessionRow) : ChatSession :=
  {| s_id := sr_id session;
     s_title := sr_title session;
     s_created_at := sr_created_at session;
     s_updated_at := sr_updated_at session;
     s_last_message_at := sr_last_message_at session;
     s_document_ids := arrOrElse (sr_document_ids session) |}.

(** [loadChatSessions]: [closure] is the render the callback was created
    in, [resp] the answer to
    [.order('last_message_at', desc).range(0, chatSessionsLoadedCount - 1)]. *)
Definition loadChatSessions (closure : AppState)
    (resp : Response (list SessionRow)) (st : AppState) : AppState :=
  match user closure with
  | None => st
  | Some u =>
      let st := emit (SelectChatSessions (u_id u) (chatSessionsLoadedCount closure)) st in
      match resp with
      | Failed _ => st
      | Ok data =>
          let formattedSessions := formatSession <$> data in
          let st := setChatSessions (λ _, formattedSessions) st in
          setHasMoreChatSessions
            (bool_decide (length formattedSessions = chatSessionsLoadedCount closure)) st
      end
  end.

Definition handleLoadMoreChatSessions (st : AppState) : AppState :=
  setChatSessionsLoadedCount (λ prevCount, prevCount + CHAT_SESSIONS_PER_PAGE) st.

(** The comparator of the two [sort] calls: most recent [last_message_at]
    first. *)
Definition moreRecent (a b : ChatSession) : bool :=
  (s_last_message_at b <? s_last_message_at a)%Z.

(** [createNewChatSession]: returns the id of the new session, or [null]. *)
Definition createNewChatSession (closure : AppState)
    (insertResp : Response (option SessionRow))
    (reloadResp : Response (list SessionRow))
    (st : AppState) : option string * AppState :=
  match user closure with
  | None => (None, st)
  | Some u =>
      let st := emit (InsertChatSession (u_id u) (selectedDocumentIds closure)) st in
      match insertResp with
      | Failed _ => (None, st)
      | Ok None => (None, st)
      | Ok (Some data) =>
          let newSession := formatSession data in
          let st := setChatSessionsLoadedCount (λ _, CHAT_SESSIONS_PER_PAGE) st in
          let st := loadChatSessions closure reloadResp st in
          let st := setActiveChatSessionId (Some (s_id newSession)) st in
          let st := setChatMessages (λ _, []) st in
          let st := setHasMoreMessages false st in
          (Some (s_id newSession), st)
      end
  end.

(** [deleteChatSession]: [deleteError] is the [error] of the remote delete. *)
Definition deleteChatSession (closure : AppState) (sessionId : string)
    (deleteError : option string) (reloadResp : Response (list SessionRow))
    (st : AppState) : AppState :=
  match user closure with
  | None => st
  | Some u =>
      let st := emit (DeleteChatSessionRow sessionId (u_id u)) st in
      match deleteError with
      | Some _ => st
      | None =>
          let st := setChatSessionsLoadedCount (λ _, CHAT_SESSIONS_PER_PAGE) st in
          let st := loadChatSessions closure reloadResp st in
          if bool_decide (activeChatSessionId closure = Some sessionId) then
            if (1 <? length (chatSessions closure))%nat then
              let remainingSessions :=
                List.filter (λ s, negb (String.eqb (s_id s) sessionId))
                            (chatSessions closure) in
              (* [remainingSessions.length > 0], then the head of the sorted
                 array: the sort keeps the length *)
              match stableSort moreRecent remainingSessions with
              | mostRecent :: _ =>
                  setActiveChatSessionId (Some (s_id mostRecent)) st
              | [] =>
                  let st := setActiveChatSessionId None st in
                  let st := setChatMessages (λ _, []) st in
                  setHasMoreMessages false st
              end
            else
              let st := setActiveChatSessionId None st in
              let st := setChatMessages (λ _, []) st in
              setHasMoreMessages false st
          else st
      end
  end.

(** ** Message store *)

(** The object both loaders build from a row; [now] is the clock reading
    that stands in for a missing timestamp. *)
Definition formatMessage (now : Z) (msg : MessageRow) : Message :=
  {| m_id := r_id msg;
     m_content := r_content msg;
     m_role := r_role msg;
     m_timestamp := default now (r_timestamp msg);
     m_isError := Some (boolOrFalse (r_is_error msg));
     m_originalUserMessageContent := None;
     m_imageUrl := strOrUndefined (r_image_url msg);
     m_imageMimeType := strOrUndefined (r_image_mime_type msg);
     m_attachedDocumentIds := Some (arrOrElse (r_attached_document_ids msg));
     m_attachedNoteIds := Some (arrOrElse (r_attached_note_ids msg)) |}.

(** [data.map(format).reverse()]; [clock i] is the clock when row [i] is
    formatted. *)
Definition formatMessages (clock : nat → Z) (data : list MessageRow) : list Message :=
  reverse (imap (λ i msg, formatMessage (clock i) msg) data).

(** [loadSessionMessages(sessionId)]: [resp] answers
    [.eq('session_id', sessionId).order('timestamp', desc).limit(20)]. *)
Definition loadSessionMessages (closure : AppState) (sessionId : string)
    (resp : Response (list MessageRow)) (clock : nat → Z)
    (st : AppState) : AppState :=
  match user closure with
  | None => st
  | Some _ =>
      let st := emit (SelectChatMessages sessionId None) st in
      match resp with
      | Failed _ => setChatMessages (λ _, []) st
      | Ok data =>
          let formattedMessages := formatMessages clock data in
          let st := setChatMessages (λ _, formattedMessages) st in
          setHasMoreMessages (bool_decide (length data = CHAT_MESSAGES_PER_PAGE)) st
      end
  end.

(** [handleLoadOlderChatMessages]: [resp] answers the same query with
    [.lt('timestamp', oldestMessageTimestamp)] added. *)
Definition handleLoadOlderChatMessages (closure : AppState)
    (resp : Response (list MessageRow)) (clock : nat → Z)
    (st : AppState) : AppState :=
  match strOrUndefined (activeChatSessionId closure), user closure, chatMessages closure with
  | Some activeId, Some _, oldest :: _ =>
      let oldestMessageTimestamp := m_timestamp oldest in
      let st := emit (SelectChatMessages activeId (Some oldestMessageTimestamp)) st in
      match resp with
      | Failed _ => st
      | Ok data =>
          let olderMessages := formatMessages clock data in
          let st := setChatMessages (λ prevMessages, (olderMessages ++ prevMessages)%list) st in
          setHasMoreMessages (bool_decide (length data = CHAT_MESSAGES_PER_PAGE)) st
      end
  | _, _, _ => st
  end.

(** The effect on [activeChatSessionId]: load the session's messages, or
    clear the buffer when no session is active. *)
Definition activeSessionEffect (resp : Response (list MessageRow))
    (clock : nat → Z) (st : AppState) : AppState :=
  match strOrUndefined (activeChatSessionId st) with
  | Some activeId => loadSessionMessages st activeId resp clock st
  | None =>
      let st := setChatMessages (λ _, []) st in
      setHasMoreMessages false st
  end.

(** ** AI response orchestrator *)

(** How [supabase.functions.invoke('gemini-chat', ...)] ends: the promise
    rejects, or it resolves to [{ data, error }] ([error] is the message of
    the error object, [data] is [null] or carries [response]). *)
Inductive InvokeOutcome :=
| InvokeThrew (message : string)
| InvokeReturned (error : option string) (data : option (option string)).

(** What the outside world answers during one run of [_getAIResponse]. *)
Record AIWorld := mkAIWorld {
  invoked : InvokeOutcome;
  updateDbError : option string;
  insertResult : Response (option MessageRow);
  randomUUID : string;
  now : Z;
}.

(** The message of the [TypeError] that reading [data.response] raises when
    [data] is [null] (V8's wording). *)
Definition nullDataMessage : string :=
  "Cannot read properties of null (reading 'response')".

Definition isTarget (aiMessageIdToUpdate : option string) (msg : Message) : bool :=
  truthy aiMessageIdToUpdate && bool_decide (Some (m_id msg) = aiMessageIdToUpdate).

Definition hasAttachments (msg : Message) : bool :=
  match m_attachedDocumentIds msg with
  | Some ids => (0 <? length ids)%nat
  | None => false
  end
  ||
  match m_attachedNoteIds msg with
  | Some ids => (0 <? length ids)%nat
  | None => false
  end.

(** One round of [historicalMessages.forEach]. *)
Definition appendHistoricalTurn (closure : AppState)
    (acc : list Turn * AppState) (msg : Message) : list Turn * AppState :=
  let '(chatHistory, st) := acc in
  match m_role msg with
  | role_user =>
      let userParts := [TextPart (m_content msg)] in
      let '(userParts, st) :=
        if hasAttachments msg then
          let '(historicalContext, st) :=
            buildRichContext (Some (arrOrElse (m_attachedDocumentIds msg)))
                             (Some (arrOrElse (m_attachedNoteIds msg)))
                             (Some (documents closure)) (Some (notes closure)) st in
          if truthy (Some historicalContext)
          then ((userParts ++ [TextPart (nl ++ nl ++ "Context from previous attachments:"
                                           ++ nl ++ historicalContext)])%list, st)
          else (userParts, st)
        else (userParts, st) in
      ((chatHistory ++ [mkTurn "user" userParts])%list, st)
  | role_assistant =>
      ((chatHistory ++ [mkTurn "model" [TextPart (m_content msg)]])%list, st)
  end.

(** The [chatHistory] sent to the edge function. *)
Definition buildChatHistory (closure : AppState) (userMessageContent : string)
    (aiMessageIdToUpdate imageDataBase64 imageMimeType : option string)
    (st : AppState) : list Turn * AppState :=
  let historicalMessages :=
    List.filter (λ msg, negb (isTarget aiMessageIdToUpdate msg))
                (chatMessages closure) in
  let '(chatHistory, st) :=
    fold_left (appendHistoricalTurn closure) historicalMessages ([], st) in
  let currentUserParts :=
    if truthy (Some userMessageContent) then [TextPart userMessageContent] else [] in
  let currentUserParts :=
    match strOrUndefined imageDataBase64, strOrUndefined imageMimeType with
    | Some image, Some mime =>
        (currentUserParts ++ [InlineData mime (splitCommaSecond image)])%list
    | _, _ => currentUserParts
    end in
  ((chatHistory ++ [mkTurn "user" currentUserParts])%list, st).

(** The object the success path writes over the regenerated message. *)
Definition regenerated (content : string) (timestamp : Z) (isError : bool)
    (msg : Message) : Message :=
  {| m_id := m_id msg;
     m_content := content;
     m_role := m_role msg;
     m_timestamp := timestamp;
     m_isError := Some isError;
     m_originalUserMessageContent := m_originalUserMessageContent msg;
     m_imageUrl := m_imageUrl msg;
     m_imageMimeType := m_imageMimeType msg;
     m_attachedDocumentIds := m_attachedDocumentIds msg;
     m_attachedNoteIds := m_attachedNoteIds msg |}.

(** [prev.map(msg => msg.id === id ? { ...msg, content, timestamp, isError } : msg)] *)
Definition updateMessage (id content : string) (timestamp : Z) (isError : bool)
    (prev : list Message) : list Message :=
  (λ msg, if String.eqb (m_id msg) id
          then regenerated content timestamp isError msg
          else msg) <$> prev.

(** The session the success path writes over the active one. *)
Definition touchSession (sessionId : string) (timestamp : Z)
    (attachedDocumentIds : list string) (session : ChatSession) : ChatSession :=
  if String.eqb (s_id session) sessionId
  then {| s_id := s_id session;
          s_title := s_title session;
          s_created_at := s_created_at session;
          s_updated_at := s_updated_at session;
          s_last_message_at := timestamp;
          s_document_ids := attachedDocumentIds |}
  else session.

(** The [try] block of [_getAIResponse]: the message of the error it
    throws, if it throws, and the state it leaves. *)
Definition tryGetAIResponse (closure : AppState) (userMessageContent : string)
    (currentUser : User) (sessionId : string)
    (attachedDocumentIds : list string)
    (aiMessageIdToUpdate imageDataBase64 imageMimeType : option string)
    (w : AIWorld) (st : AppState) : option string * AppState :=
  let '(chatHistory, st) :=
    buildChatHistory closure userMessageContent aiMessageIdToUpdate
                     imageDataBase64 imageMimeType st in
  let st := emit (InvokeGeminiChat sessionId chatHistory) st in
  match invoked w with
  | InvokeThrew message => (Some message, st)
  | InvokeReturned (Some message) _ => (Some ("AI service error: " ++ message), st)
  | InvokeReturned None None => (Some nullDataMessage, st)
  | InvokeReturned None (Some response) =>
      match strOrUndefined response with
      | None => (Some "Empty response from AI service", st)
      | Some aiResponseContent =>
          let saved :=
            match strOrUndefined aiMessageIdToUpdate with
            | Some id =>
                let st := emit (UpdateChatMessage id sessionId aiResponseContent) st in
                match updateDbError w with
                | Some _ => (Some "Failed to save AI response", st)
                | None =>
                    (None, setChatMessages
                             (updateMessage id aiResponseContent (now w) false) st)
                end
            | None =>
                let st := emit (InsertChatMessage sessionId role_assistant aiResponseContent) st in
                match insertResult w with
                | Failed _ => (Some "Failed to save AI response", st)
                | Ok newAiMessageData =>
                    let newAiMessage :=
                      {| m_id := strOrElse (r_id <$> newAiMessageData) (randomUUID w);
                         m_content := aiResponseContent;
                         m_role := role_assistant;
                         m_timestamp := default (now w) (newAiMessageData ≫= r_timestamp);
                         m_isError := Some false;
                         m_originalUserMessageContent := None;
                         m_imageUrl := None;
                         m_imageMimeType := None;
                         m_attachedDocumentIds := None;
                         m_attachedNoteIds := None |} in
                    (None, setChatMessages (λ prev, (prev ++ [newAiMessage])%list) st)
                end
            end in
          match saved with
          | (Some message, st) => (Some message, st)
          | (None, st) =>
              let st := emit (UpdateChatSession sessionId attachedDocumentIds) st in
              (None, setChatSessions
                       (λ prev, stableSort moreRecent
                                  (touchSession sessionId (now w) attachedDocumentIds <$> prev))
                       st)
          end
      end
  end.

(** The [catch] block of [_getAIResponse]. *)
Definition catchGetAIResponse (userMessageContent : string)
    (aiMessageIdToUpdate : option string) (message : string)
    (w : AIWorld) (st : AppState) : AppState :=
  match strOrUndefined aiMessageIdToUpdate with
  | Some id =>
      setChatMessages
        (updateMessage id
           ("Failed to regenerate response: " ++ strOrElse (Some message) "Unknown error"
              ++ ". Please try again.")
           (now w) true)
        st
  | None =>
      let errorMessage :=
        {| m_id := randomUUID w;
           m_content := "I'm sorry, I couldn't generate a response: "
                          ++ strOrElse (Some message) "Unknown error"
                          ++ ". Please try again.";
           m_role := role_assistant;
           m_timestamp := now w;
           m_isError := Some true;
           m_originalUserMessageContent := Some userMessageContent;
           m_imageUrl := None;
           m_imageMimeType := None;
           m_attachedDocumentIds := None;
           m_attachedNoteIds := None |} in
      setChatMessages (λ prev, (prev ++ [errorMessage])%list) st
  end.

(** [_getAIResponse] *)
Definition _getAIResponse (closure : AppState) (userMessageContent : string)
    (currentUser : option User) (sessionId : string)
    (attachedDocumentIds attachedNoteIds : list string)
    (aiMessageIdToUpdate imageDataBase64 imageMimeType : option string)
    (w : AIWorld) (st : AppState) : AppState :=
  match currentUser, strOrUndefined (Some sessionId) with
  | Some currentUser, Some sessionId =>
      let st := setIsAILoading true st in
      let '(thrown, st) :=
        tryGetAIResponse closure userMessageContent currentUser sessionId
          attachedDocumentIds aiMessageIdToUpdate imageDataBase64 imageMimeType w st in
      let st :=
        match thrown with
        | Some message =>
            catchGetAIResponse userMessageContent aiMessageIdToUpdate message w st
        | None => st
        end in
      setIsAILoading false st
  | _, _ => st
  end.

(** ** Submitting, regenerating and retrying *)

(** What the outside world answers during one run of [handleSubmit]. *)
Record SubmitWorld := mkSubmitWorld {
  authUser : option User;
  sessionInsert : Response (option SessionRow);
  sessionsReload : Response (list SessionRow);
  documentRefresh : Response Document;
  userMessageInsert : Response MessageRow;
  submitNow : Z;
  aiWorld : AIWorld;
}.

(** [refreshUploadedDocument]: returns the refreshed document, or [null]. *)
Definition refreshUploadedDocument (docId : string) (resp : Response Document)
    (st : AppState) : option Document * AppState :=
  let st := emit (SelectDocument docId) st in
  match resp with
  | Failed _ => (None, st)
  | Ok data =>
      let refreshedDocData :=
        {| d_id := d_id data;
           d_title := d_title data;
           d_file_name := d_file_name data;
           d_type := d_type data;
           d_file_url := d_file_url data;
           d_content_extracted := d_content_extracted data;
           d_processing_status := Some (default "unknown" (d_processing_status data));
           d_processing_error := d_processing_error data |} in
      (Some refreshedDocData,
       setDocuments
         (λ prev, (λ doc, if String.eqb (d_id doc) docId then refreshedDocData else doc) <$> prev)
         st)
  end.

(** The guard that opens [handleSubmit]. *)
Definition submitRejected (closure : AppState) (messageContent : string)
    (attachedDocumentIds attachedNoteIds : option (list string))
    (imageUrl : option string) : bool :=
  negb (truthy (Some (trim messageContent)))
    && (length (arrOrElse attachedDocumentIds) =? 0)%nat
    && (length (arrOrElse attachedNoteIds) =? 0)%nat
    && negb (truthy imageUrl)
  || isAILoading closure
  || isSubmittingUserMessage closure.

(** The uploaded image among the attached documents, if any. *)
Definition findImageDocId (closure : AppState)
    (finalAttachedDocumentIds : list string) (imageUrl : string) : option string :=
  List.find
    (λ docId,
       match List.find (λ d, String.eqb (d_id d) docId) (documents closure) with
       | Some doc => String.eqb (d_type doc) "image" && String.eqb (d_file_url doc) imageUrl
       | None => false
       end)
    finalAttachedDocumentIds.

(** The [try] block of [handleSubmit]. *)
Definition trySubmit (closure : AppState) (trimmedMessage : string)
    (attachedDocumentIds attachedNoteIds : option (list string))
    (imageUrl imageMimeType imageDataBase64 : option string)
    (w : SubmitWorld) (st : AppState) : AppState :=
  let st := emit AuthGetUser st in
  match authUser w with
  | None => st
  | Some currentUser =>
      let '(currentSessionId, st) :=
        match strOrUndefined (activeChatSessionId closure) with
        | Some id => (Some id, st)
        | None =>
            let '(created, st) :=
              createNewChatSession closure (sessionInsert w) (sessionsReload w) st in
            (strOrUndefined created, st)
        end in
      match currentSessionId with
      | None => st
      | Some currentSessionId =>
          let finalAttachedDocumentIds := arrOrElse attachedDocumentIds in
          let finalAttachedNoteIds := arrOrElse attachedNoteIds in
          let st :=
            match strOrUndefined imageUrl with
            | Some url =>
                if (0 <? length finalAttachedDocumentIds)%nat then
                  match strOrUndefined (findImageDocId closure finalAttachedDocumentIds url) with
                  | Some imageDocId =>
                      snd (refreshUploadedDocument imageDocId (documentRefresh w) st)
                  | None => st
                  end
                else st
            | None => st
            end in
          let st := setSelectedDocumentIds finalAttachedDocumentIds st in
          let st := emit (InsertChatMessage currentSessionId role_user trimmedMessage) st in
          match userMessageInsert w with
          | Failed _ => st
          | Ok userMessageData =>
              let newUserMessage :=
                {| m_id := r_id userMessageData;
                   m_content := r_content userMessageData;
                   m_role := r_role userMessageData;
                   m_timestamp := default (submitNow w) (r_timestamp userMessageData);
                   m_isError := None;
                   m_originalUserMessageContent := None;
                   m_imageUrl := r_image_url userMessageData;
                   m_imageMimeType := r_image_mime_type userMessageData;
                   m_attachedDocumentIds :=
                     Some (arrOrElse (r_attached_document_ids userMessageData));
                   m_attachedNoteIds :=
                     Some (arrOrElse (r_attached_note_ids userMessageData)) |} in
              let st := setChatMessages (λ prev, (prev ++ [newUserMessage])%list) st in
              let st :=
                _getAIResponse closure trimmedMessage (Some currentUser) currentSessionId
                  finalAttachedDocumentIds finalAttachedNoteIds None
                  imageDataBase64 imageMimeType (aiWorld w) st in
              emit (UpdateChatSession currentSessionId finalAttachedDocumentIds) st
          end
      end
  end.

(** [handleSubmit] *)
Definition handleSubmit (closure : AppState) (messageContent : string)
    (attachedDocumentIds attachedNoteIds : option (list string))
    (imageUrl imageMimeType imageDataBase64 : option string)
    (w : SubmitWorld) (st : AppState) : AppState :=
  if submitRejected closure messageContent attachedDocumentIds attachedNoteIds imageUrl
  then st
  else
    let trimmedMessage := trim messageContent in
    let st := setIsSubmittingUserMessage true st in
    let st :=
      trySubmit closure trimmedMessage attachedDocumentIds attachedNoteIds
        imageUrl imageMimeType imageDataBase64 w st in
    setIsSubmittingUserMessage false st.

(** The placeholder both [handleRegenerateResponse] and
    [handleRetryFailedMessage] write over the targeted message. *)
Definition markThinking (id : string) (timestamp : Z)
    (prevMessages : list Message) : list Message :=
  updateMessage id "AI is thinking..." timestamp false prevMessages.

(** [handleRegenerateResponse]: [thinkingAt] is the clock when the
    placeholder is written. *)
Definition handleRegenerateResponse (closure : AppState)
    (lastUserMessageContent : string) (thinkingAt : Z) (w : AIWorld)
    (st : AppState) : AppState :=
  match user closure, strOrUndefined (activeChatSessionId closure) with
  | Some u, Some activeId =>
      let lastAssistantMessage :=
        findLast (λ msg, bool_decide (m_role msg = role_assistant)) (chatMessages closure) in
      let lastUserMessage :=
        findLast (λ msg, bool_decide (m_role msg = role_user)) (chatMessages closure) in
      match lastUserMessage, lastAssistantMessage with
      | Some lastUserMessage, Some lastAssistantMessage =>
          let st := setChatMessages (markThinking (m_id lastAssistantMessage) thinkingAt) st in
          _getAIResponse closure lastUserMessageContent (Some u) activeId
            (arrOrElse (m_attachedDocumentIds lastUserMessage))
            (arrOrElse (m_attachedNoteIds lastUserMessage))
            (Some (m_id lastAssistantMessage)) None None w st
      | _, _ => st
      end
  | _, _ => st
  end.

(** [handleRetryFailedMessage] *)
Definition handleRetryFailedMessage (closure : AppState)
    (originalUserMessageContent failedAiMessageId : string)
    (thinkingAt : Z) (w : AIWorld) (st : AppState) : AppState :=
  match user closure, strOrUndefined (activeChatSessionId closure) with
  | Some u, Some activeId =>
      let lastUserMessage :=
        findLast (λ msg, bool_decide (m_role msg = role_user)
                         && String.eqb (m_content msg) originalUserMessageContent)
                 (chatMessages closure) in
      match lastUserMessage with
      | Some lastUserMessage =>
          let st := setChatMessages (markThinking failedAiMessageId thinkingAt) st in
          _getAIResponse closure originalUserMessageContent (Some u) activeId
            (arrOrElse (m_attachedDocumentIds lastUserMessage))
            (arrOrElse (m_attachedNoteIds lastUserMessage))
            (Some failedAiMessageId) None None w st
      | None => st
      end
  | _, _ => st
  end.

(** ** Audio job poller (the polling effect of [NoteEditor]) *)

Module NoteEditor.

(** A row of [audio_processing_results]. *)
Record AudioResult := mkAudioResult {
  status : string;
  transcript : option string;
  summary : option string;
  translated_content : option string;
  error_message : option string;
  document_id : option string;
}.

(** How a status read ends: [error] is set or the promise rejects, or
    [data] comes back ([null] when there is no row). *)
Inductive PollOutcome :=
| ReadFailed (message : string)
| ReadRow (data : option AudioResult).

(** What one run of the polling effect closes over: the dependencies it
    reads and its own [pollInterval] variable. *)
Record Closure := mkClosure {
  c_audioProcessingJobId : option string;
  c_userProfile : option string;
  c_pollInterval : option nat;
}.

(** The argument of a call of [onNoteUpdate]. *)
Record NoteUpdate := mkNoteUpdate {
  nu_content : string;
  nu_aiSummary : string;
  nu_document_id : option string;
}.

(** The state hooks of [NoteEditor] the effect touches ([userProfile] is
    the id of the profile prop), the browser's armed intervals with the
    closure each one calls, the status reads that have not resolved yet, and
    two ghost fields: the calls of [onNoteUpdate] and the job ids of the
    status reads issued so far. *)
Record EditorState := mkEditorState {
  audioProcessingJobId : option string;
  userProfile : option string;
  isProcessingAudio : bool;
  isGeneratingAudioNote : bool;
  isGeneratingAudioSummary : bool;
  isTranslatingAudio : bool;
  isAudioOptionsVisible : bool;
  content : string;
  translatedContent : option string;
  pollingEffect : Closure;
  intervals : gmap nat Closure;
  nextInterval : nat;
  inFlight : list Closure;
  noteUpdates : list NoteUpdate;
  statusReads : list string;
}.

(** [clearInterval(h)] *)
Definition clearInterval (h : nat) (s : EditorState) : EditorState :=
  mkEditorState (audioProcessingJobId s) (userProfile s) (isProcessingAudio s)
    (isGeneratingAudioNote s) (isGeneratingAudioSummary s) (isTranslatingAudio s)
    (isAudioOptionsVisible s) (content s) (translatedContent s) (pollingEffect s)
    (delete h (intervals s)) (nextInterval s) (inFlight s) (noteUpdates s)
    (statusReads s).

(** [if (pollInterval) clearInterval(pollInterval)] *)
Definition clearPollInterval (c : Closure) (s : EditorState) : EditorState :=
  match c_pollInterval c with
  | Some h => if (h =? 0)%nat then s else clearInterval h s
  | None => s
  end.

(** The six setter calls and the [clearInterval] that the [completed]
    branch, the [error] branch and the [catch] block all end with. *)
Definition stopPolling (c : Closure) (s : EditorState) : EditorState :=
  clearPollInterval c
    (mkEditorState None (userProfile s) false false false false false
       (content s) (translatedContent s) (pollingEffect s)
       (intervals s) (nextInterval s) (inFlight s) (noteUpdates s)
       (statusReads s)).

(** [pollJobStatus] up to its [await]: the status read is issued unless
    the job id or the profile is missing. *)
Definition pollJobStatus (c : Closure) (s : EditorState) : EditorState :=
  match strOrUndefined (c_audioProcessingJobId c), c_userProfile c with
  | Some jobId, Some _ =>
      mkEditorState (audioProcessingJobId s) (userProfile s) (isProcessingAudio s)
        (isGeneratingAudioNote s) (isGeneratingAudioSummary s) (isTranslatingAudio s)
        (isAudioOptionsVisible s) (content s) (translatedContent s) (pollingEffect s)
        (intervals s) (nextInterval s) (inFlight s ++ [c]) (noteUpdates s)
        (statusReads s ++ [jobId])
  | _, _ => s
  end.

(** [pollJobStatus] after its [await]. *)
Definition pollJobStatusResolved (c : Closure) (r : PollOutcome)
    (s : EditorState) : EditorState :=
  match r with
  | ReadFailed _ => stopPolling c s
  | ReadRow None => s
  | ReadRow (Some audioResult) =>
      if String.eqb (status audioResult) "completed" then
        let s :=
          mkEditorState (audioProcessingJobId s) (userProfile s) (isProcessingAudio s)
            (isGeneratingAudioNote s) (isGeneratingAudioSummary s) (isTranslatingAudio s)
            (isAudioOptionsVisible s)
            (strOrElse (transcript audioResult) "No transcription available.")
            (strOrUndefined (translated_content audioResult)) (pollingEffect s)
            (intervals s) (nextInterval s) (inFlight s)
            (noteUpdates s ++
               [mkNoteUpdate (strOrElse (transcript audioResult) "")
                             (strOrElse (summary audioResult) "No summary available.")
                             (strOrUndefined (document_id audioResult))])
            (statusReads s) in
        stopPolling c s
      else if String.eqb (status audioResult) "error" then stopPolling c s
      else s
  end.

(** The polling effect: the cleanup of the previous run, then the body. *)
Definition runPollingEffect (s : EditorState) : EditorState :=
  let s := clearPollInterval (pollingEffect s) s in
  match strOrUndefined (audioProcessingJobId s) with
  | Some _ =>
      let h := nextInterval s in
      let c := mkClosure (audioProcessingJobId s) (userProfile s) (Some h) in
      let s :=
        mkEditorState (audioProcessingJobId s) (userProfile s) (isProcessingAudio s)
          (isGeneratingAudioNote s) (isGeneratingAudioSummary s) (isTranslatingAudio s)
          (isAudioOptionsVisible s) (content s) (translatedContent s) c
          (<[h := c]> (intervals s)) (S h) (inFlight s) (noteUpdates s)
          (statusReads s) in
      pollJobStatus c s
  | None =>
      mkEditorState (audioProcessingJobId s) (userProfile s) (isProcessingAudio s)
        (isGeneratingAudioNote s) (isGeneratingAudioSummary s) (isTranslatingAudio s)
        (isAudioOptionsVisible s) (content s) (translatedContent s)
        (mkClosure (audioProcessingJobId s) (userProfile s) None)
        (intervals s) (nextInterval s) (inFlight s) (noteUpdates s)
        (statusReads s)
  end.

(** The render that follows a state change: the effect runs again when one
    of its dependencies changed. *)
Definition commit (before after : EditorState) : EditorState :=
  if bool_decide (audioProcessingJobId before = audioProcessingJobId after
                  ∧ userProfile before = userProfile after)
  then after
  else runPollingEffect after.

(** The three handlers that start a job: [handleGenerateNoteFromAudio],
    [handleGenerateSummaryFromAudio] and [handleTranslateAudio]. *)
Inductive JobKind := FullNote | SummaryOnly | Translation.

(** What happens to a mounted editor. *)
Inductive Event :=
| StartJob (kind : JobKind) (jobId : string)
| ClearAudioProcessing
| NoteChanged (noteContent : string)
| ProfileChanged (profile : option string)
| Tick (h : nat)
| Respond (i : nat) (r : PollOutcome).

Definition step (e : Event) (s : EditorState) : EditorState :=
  match e with
  | StartJob kind jobId =>
      (* the end of a handler whose [process-audio] call answered with a
         truthy [data.job_id]:
         [setAudioProcessingJobId(data.job_id); setIsProcessingAudio(true)],
         then the [finally] block lowers the handler's own flag *)
      match strOrUndefined (Some jobId) with
      | Some jobId =>
          commit s
            (mkEditorState (Some jobId) (userProfile s) true
               (match kind with FullNote => false | _ => isGeneratingAudioNote s end)
               (match kind with SummaryOnly => false | _ => isGeneratingAudioSummary s end)
               (match kind with Translation => false | _ => isTranslatingAudio s end)
               (isAudioOptionsVisible s) (content s) (translatedContent s) (pollingEffect s)
               (intervals s) (nextInterval s) (inFlight s) (noteUpdates s) (statusReads s))
      | None => s
      end
  | ClearAudioProcessing =>
      (* [handleClearAudioProcessing] *)
      commit s
        (mkEditorState None (userProfile s) false false false false false
           (content s) None (pollingEffect s)
           (intervals s) (nextInterval s) (inFlight s) (noteUpdates s) (statusReads s))
  | NoteChanged noteContent =>
      (* the effect on [note], then the polling effect, which depends on
         [note] too *)
      runPollingEffect
        (mkEditorState None (userProfile s) (isProcessingAudio s)
           (isGeneratingAudioNote s) (isGeneratingAudioSummary s) (isTranslatingAudio s)
           false noteContent None (pollingEffect s)
           (intervals s) (nextInterval s) (inFlight s) (noteUpdates s) (statusReads s))
  | ProfileChanged profile =>
      commit s
        (mkEditorState (audioProcessingJobId s) profile (isProcessingAudio s)
           (isGeneratingAudioNote s) (isGeneratingAudioSummary s) (isTranslatingAudio s)
           (isAudioOptionsVisible s) (content s) (translatedContent s) (pollingEffect s)
           (intervals s) (nextInterval s) (inFlight s) (noteUpdates s) (statusReads s))
  | Tick h =>
      (* a cleared interval never fires *)
      match intervals s !! h with
      | Some c => pollJobStatus c s
      | None => s
      end
  | Respond i r =>
      match inFlight s !! i with
      | Some c =>
          let s' :=
            mkEditorState (audioProcessingJobId s) (userProfile s) (isProcessingAudio s)
              (isGeneratingAudioNote s) (isGeneratingAudioSummary s) (isTranslatingAudio s)
              (isAudioOptionsVisible s) (content s) (translatedContent s) (pollingEffect s)
              (intervals s) (nextInterval s) (delete i (inFlight s)) (noteUpdates s)
              (statusReads s) in
          commit s (pollJobStatusResolved c r s')
      | None => s
      end
  end.

Definition run (events : list Event) (s : EditorState) : EditorState :=
  fold_left (λ s e, step e s) events s.

(** The editor right after it is mounted on a note: no job, the effect has
    run once and armed nothing.  Interval handles start at 1, as the
    browser's do, so that [if (pollInterval)] holds for every handle. *)
Definition mounted (profile : option string) (noteContent : string) : EditorState :=
  mkEditorState None profile false false false false false noteContent None
    (mkClosure None profile None) ∅ 1 [] [] [].

(** The outcomes that end a job: a terminal status, or a failed read. *)
Definition terminal (r : PollOutcome) : Prop :=
  match r with
  | ReadFailed _ => True
  | ReadRow (Some audioResult) =>
      status audioResult = "completed" ∨ status audioResult = "error"
  | ReadRow None => False
  end.

End NoteEditor.


(** ** Further callbacks of [Index] *)

(** [s.split(sep)] for a one-character separator: the pieces between the
    separators, one piece more than there are separators. *)
Fixpoint splitOn (sep : ascii) (s : string) : list string :=
  match s with
  | EmptyString => [""]
  | String c s' =>
      if Ascii.eqb c sep then "" :: splitOn sep s'
      else match splitOn sep s' with
           | piece :: pieces => String c piece :: pieces
           | [] => [String c ""]
           end
  end.

(** [currentActiveTab]: the tab named by the first segment of the path,
    ['notes'] for any other path. *)
Definition currentActiveTab (pathname : string) : string :=
  match splitOn "/" pathname !! 1%nat with
  | Some path =>
      if String.eqb path "notes" then "notes"
      else if String.eqb path "recordings" then "recordings"
      else if String.eqb path "schedule" then "schedule"
      else if String.eqb path "chat" then "chat"
      else if String.eqb path "documents" then "documents"
      else if String.eqb path "settings" then "settings"
      else "notes"
  | None => "notes"
  end.

(** The path [memoizedOnTabChange(tab)] navigates to. *)
Definition tabPath (tab : string) : string := "/" ++ tab.

(** The effect on [activeChatSessionId] and [chatSessions] that keeps
    [selectedDocumentIds] in step with the active session. *)
Definition selectedDocumentsEffect (st : AppState) : AppState :=
  match strOrUndefined (activeChatSessionId st) with
  | Some activeId =>
      if (0 <? length (chatSessions st))%nat then
        match List.find (λ s, String.eqb (s_id s) activeId) (chatSessions st) with
        | Some currentSession =>
            setSelectedDocumentIds (s_document_ids currentSession) st
        | None => st
        end
      else st
  | None => setSelectedDocumentIds [] st
  end.

(** The session [renameChatSession] writes over the renamed one. *)
Definition retitled (sessionId newTitle : string) (s : ChatSession) : ChatSession :=
  if String.eqb (s_id s) sessionId
  then {| s_id := s_id s;
          s_title := newTitle;
          s_created_at := s_created_at s;
          s_updated_at := s_updated_at s;
          s_last_message_at := s_last_message_at s;
          s_document_ids := s_document_ids s |}
  else s.

(** [renameChatSession]: [updateError] is the [error] of the remote update. *)
Definition renameChatSession (closure : AppState) (sessionId newTitle : string)
    (updateError : option string) (st : AppState) : AppState :=
  match user closure with
  | None => st
  | Some _ =>
      match updateError with
      | Some _ => st
      | None => setChatSessions (λ prev, retitled sessionId newTitle <$> prev) st
      end
  end.

(** [handleDeleteMessage]: the message leaves the buffer before the remote
    delete is sent; [deleteError], the [error] of that delete, only decides
    which notification is shown. *)
Definition handleDeleteMessage (closure : AppState) (messageId : string)
    (deleteError : option string) (st : AppState) : AppState :=
  match user closure, strOrUndefined (activeChatSessionId closure) with
  | Some _, Some _ =>
      setChatMessages
        (λ prevMessages,
           List.filter (λ msg, negb (String.eqb (m_id msg) messageId)) prevMessages)
        st
  | _, _ => st
  end.

(** ** Note editor: saving, escaping, file names *)

(** The double quote. *)
Definition dquote : ascii := ascii_of_nat 34.

(** What [escapeHtml] writes for a character: its [map] entry for the five
    characters of the pattern (ampersand, angle brackets, double and single
    quote), the character itself otherwise. *)
Definition escapeChar (c : ascii) : string :=
  if Ascii.eqb c "&" then "&amp;"
  else if Ascii.eqb c "<" then "&lt;"
  else if Ascii.eqb c ">" then "&gt;"
  else if Ascii.eqb c dquote then "&quot;"
  else if Ascii.eqb c "'" then "&#039;"
  else String c "".

(** [escapeHtml]: every character of the pattern is replaced by its
    entity. *)
Fixpoint escapeHtml (text : string) : string :=
  match text with
  | EmptyString => ""
  | String c text' => escapeChar c ++ escapeHtml text'
  end.

(** The characters [/[^a-zA-Z0-9._-]/] leaves alone. *)
Definition isSafeChar (c : ascii) : bool :=
  let n := nat_of_ascii c in
  ((97 <=? n)%nat && (n <=? 122)%nat)
  || ((65 <=? n)%nat && (n <=? 90)%nat)
  || ((48 <=? n)%nat && (n <=? 57)%nat)
  || Ascii.eqb c "." || Ascii.eqb c "_" || Ascii.eqb c "-".

(** [safeFileName] of [handleAudioFileSelect]:
    [file.name.replace(/[^a-zA-Z0-9._-]/g, '_')] *)
Fixpoint safeFileName (name : string) : string :=
  match name with
  | EmptyString => ""
  | String c name' =>
      String (if isSafeChar c then c else "_"%char) (safeFileName name')
  end.

(** The [tags] field as the effect on [note] fills it: [note.tags.join(', ')]. *)
Definition tagsField (tags : list string) : string := join ", " tags.

(** The fields [handleSave] writes over the note. *)
Record SavedFields := mkSavedFields {
  saved_title : string;
  saved_content : string;
  saved_category : string;
  saved_tags : list string;
  saved_updatedAt : Z;
}.

(** [handleSave]: the arguments are the [title], [content], [category] and
    [tags] hooks and the clock. *)
Definition handleSave (title content category tags : string) (now : Z) : SavedFields :=
  {| saved_title := strOrElse (Some title) "Untitled Note";
     saved_content := content;
     saved_category := category;
     saved_tags :=
       List.filter (λ tag, negb (String.eqb tag ""))
                   (trim <$> splitOn "," tags);
     saved_updatedAt := now |}.
(** ** Vocabulary of the properties *)

(** What the specification asks of a truncated field: [content] is [s] cut
    to [limit] characters, with the ellipsis marker behind a cut. *)
Definition cutTo (limit : nat) (s content : string) : Prop :=
  (String.length content ≤ limit + String.length "...")%nat
  ∧ ((limit < String.length s)%nat →
       content = substring 0 limit s ++ "..."
       ∧ String.length (substring 0 limit s) = limit)
  ∧ ((String.length s ≤ limit)%nat → content = s).

(** The block one document contributes, and the block one note contributes. *)
Definition documentBlock (doc : Document) : string := appendDocument "" doc.
Definition noteBlock (note : Note) : string := appendNote "" note.

(** A section of the context: nothing for an empty selection, else the
    heading and the blocks. *)
Definition contextSection {A} (heading : string) (block : A → string)
    (selected : list A) : string :=
  match selected with
  | [] => ""
  | _ => heading ++ nl ++ String.concat "" (block <$> selected)
  end.


(** The lines of a note's block that follow its [Content] line. *)
Definition noteTail (note : Note) : string :=
  (if truthy (n_aiSummary note)
   then "AI Summary: " ++ strOrElse (n_aiSummary note) "" ++ nl else "")
  ++ (if (0 <? length (arrOrElse (n_tags note)))%nat
      then "Tags: " ++ join ", " (arrOrElse (n_tags note)) ++ nl else "")
  ++ nl.

(** The label in front of a document's extracted content. *)
Definition contentLabel (doc : Document) : string :=
  if String.eqb (d_type doc) "image"
  then "Content (Image Description): " else "Content: ".

(** Two states hold the same values in every state hook: they differ at
    most in the console output. *)
Definition sameHooks (a b : AppState) : Prop :=
  user a = user b
  ∧ chatSessions a = chatSessions b
  ∧ activeChatSessionId a = activeChatSessionId b
  ∧ chatMessages a = chatMessages b
  ∧ selectedDocumentIds a = selectedDocumentIds b
  ∧ isSubmittingUserMessage a = isSubmittingUserMessage b
  ∧ isAILoading a = isAILoading b
  ∧ chatSessionsLoadedCount a = chatSessionsLoadedCount b
  ∧ hasMoreChatSessions a = hasMoreChatSessions b
  ∧ hasMoreMessages a = hasMoreMessages b
  ∧ documents a = documents b
  ∧ notes a = notes b
  ∧ effects a = effects b.

(** A string of [n] copies of one character. *)
Fixpoint replicateChar (n : nat) (c : ascii) : string :=
  match n with
  | O => ""
  | S n => String c (replicateChar n c)
  end.

(** The state [Index] starts in: nobody's data is loaded yet. *)
Definition initialState (u : option User) : AppState :=
  mkAppState u [] None [] [] false false CHAT_SESSIONS_PER_PAGE true true [] [] [] [].

(** [n] session rows, most recent first. *)
Definition sampleSessionRows (n : nat) : list SessionRow :=
  (λ i, mkSessionRow (pretty i) "New Chat" 0 0 (Z.of_nat (n - i)) None) <$> seq 0 n.

(** The AI call failed: the remote function reported an error, the call
    threw, or the response was empty (or absent). *)
Definition callFailed (outcome : InvokeOutcome) : Prop :=
  match outcome with
  | InvokeThrew _ => True
  | InvokeReturned (Some _) _ => True
  | InvokeReturned None None => True
  | InvokeReturned None (Some response) => truthy response = false
  end.

(** What regenerating the message [target] may do to one message of the
    buffer: another message stays as it is, and the targeted one keeps every
    field but its content, timestamp and error flag. *)
Definition onlyRegenerated (target : string) (before after : Message) : Prop :=
  (m_id before ≠ target → after = before)
  ∧ m_id after = m_id before
  ∧ m_role after = m_role before
  ∧ m_originalUserMessageContent after = m_originalUserMessageContent before
  ∧ m_imageUrl after = m_imageUrl before
  ∧ m_imageMimeType after = m_imageMimeType before
  ∧ m_attachedDocumentIds after = m_attachedDocumentIds before
  ∧ m_attachedNoteIds after = m_attachedNoteIds before.

(** An effect that is neither a write of one of the two flags nor the AI
    call. *)
Definition quiet (e : Effect) : Prop :=
  match e with
  | SetIsSubmittingUserMessage _ | SetIsAILoading _ | InvokeGeminiChat _ _ => False
  | _ => True
  end.

(** From [st] to [st'] the two flags were not written and the AI was not
    called. *)
Definition quietStep (st st' : AppState) : Prop :=
  ∃ trace,
    effects st' = (effects st ++ trace)%list
    ∧ Forall quiet trace
    ∧ isAILoading st' = isAILoading st
    ∧ isSubmittingUserMessage st' = isSubmittingUserMessage st.

(** The part of a trace that belongs to the AI call: nothing, or the call
    made while the "AI loading" flag is up. *)
Definition aiBracket (trace : list Effect) : Prop :=
  trace = []
  ∨ ∃ sessionId chatHistory after,
      trace = ([SetIsAILoading true; InvokeGeminiChat sessionId chatHistory]
               ++ after ++ [SetIsAILoading false])%list
      ∧ Forall quiet after.

(** A world in which every remote call of a submission succeeds. *)
Definition sampleUserRow : MessageRow :=
  mkMessageRow "m1" "s1" "hello" role_user (Some 100%Z) None None None None None.

Definition sampleAIWorld : AIWorld :=
  mkAIWorld (InvokeReturned None (Some (Some "hi there"))) None
    (Ok (Some (mkMessageRow "m2" "s1" "hi there" role_assistant (Some 101%Z)
                 None None None None None)))
    "uuid-1" 102%Z.

Definition sampleSubmitWorld : SubmitWorld :=
  mkSubmitWorld (Some (mkUser "u1"))
    (Ok (Some (mkSessionRow "s1" "New Chat" 99 99 99 None)))
    (Ok [mkSessionRow "s1" "New Chat" 99 99 99 None])
    (Failed "no document") (Ok sampleUserRow) 100%Z sampleAIWorld.

(** *** The remote table of messages *)

Global Instance MessageRow_eq_dec : EqDecision MessageRow.
Proof. solve_decision. Defined.

(** The instant a row carries in its [timestamp] column. *)
Definition rowTime (r : MessageRow) : Z := default 0%Z (r_timestamp r).

(** [a] comes no later than [b] in a page ordered by timestamp descending. *)
Definition newerFirst (a b : MessageRow) : Prop := (rowTime b ≤ rowTime a)%Z.

(** [rows] is a page of the table for the query
    [.eq('session_id', sessionId) [.lt('timestamp', olderThan)]
     .order('timestamp', desc)]: rows of the table, none of them twice, all of
    that session, all strictly older than the bound when there is one, most
    recent first. *)
Definition pageOf (table : list MessageRow) (sessionId : string)
    (olderThan : option Z) (rows : list MessageRow) : Prop :=
  NoDup rows
  ∧ Forall (λ r, r ∈ table
                 ∧ r_session_id r = sessionId
                 ∧ match olderThan with
                   | Some bound => (rowTime r < bound)%Z
                   | None => True
                   end) rows
  ∧ Sorted newerFirst rows.

(** A fetch may fail; when it returns rows, they are a page. *)
Definition answers (table : list MessageRow) (sessionId : string)
    (olderThan : option Z) (resp : Response (list MessageRow)) : Prop :=
  match resp with
  | Ok rows => pageOf table sessionId olderThan rows
  | Failed _ => True
  end.

(** The states reached by [loadSessionMessages] for a session followed by
    any number of [handleLoadOlderChatMessages], every fetch answered from
    the table. *)
Inductive paginated (table : list MessageRow) (sessionId : string) : AppState → Prop :=
| paginated_load closure u resp clock st :
    user closure = Some u →
    answers table sessionId None resp →
    paginated table sessionId (loadSessionMessages closure sessionId resp clock st)
| paginated_older st resp clock :
    paginated table sessionId st →
    activeChatSessionId st = Some sessionId →
    answers table sessionId (m_timestamp <$> head (chatMessages st)) resp →
    paginated table sessionId (handleLoadOlderChatMessages st resp clock st).

(** What holds of the buffer all along: chronological, no id twice, and
    every message is a row of the table. *)
Definition chronological (table : list MessageRow) (buffer : list Message) : Prop :=
  StronglySorted Z.le (m_timestamp <$> buffer)
  ∧ NoDup (m_id <$> buffer)
  ∧ ∀ msg, msg ∈ buffer →
      ∃ r, r ∈ table ∧ m_id msg = r_id r ∧ m_timestamp msg = rowTime r.

Global Instance newerFirst_dec : RelDecision newerFirst.
Proof. intros a b. unfold newerFirst. apply _. Defined.

(** What the remote store answers to the query, ties broken by the order
    of the table. *)
Definition selectMessages (table : list MessageRow) (sessionId : string)
    (olderThan : option Z) : list MessageRow :=
  take CHAT_MESSAGES_PER_PAGE
    (merge_sort newerFirst
       (List.filter
          (λ r, String.eqb (r_session_id r) sessionId
                && match olderThan with
                   | Some bound => (rowTime r <? bound)%Z
                   | None => true
                   end)
          table)).

(** A session of [n] messages stored at the instants [1 .. n]. *)
Definition sampleTable (n : nat) : list MessageRow :=
  (λ i, mkMessageRow (pretty i) "s1" "text"
          (if Nat.even i then role_user else role_assistant)
          (Some (Z.of_nat (S i))) None None None None None) <$> seq 0 n.

(** A signed-in state with the sample session active. *)
Definition sampleActive : AppState :=
  setActiveChatSessionId (Some "s1") (initialState (Some (mkUser "u1"))).

(** The first page of the sample session, then one older page. *)
Definition sampleFirstPage (n : nat) : AppState :=
  loadSessionMessages sampleActive "s1"
    (Ok (selectMessages (sampleTable n) "s1" None)) (λ _, 0%Z) sampleActive.

Definition sampleSecondPage (n : nat) : AppState :=
  handleLoadOlderChatMessages (sampleFirstPage n)
    (Ok (selectMessages (sampleTable n) "s1"
           (m_timestamp <$> head (chatMessages (sampleFirstPage n)))))
    (λ _, 0%Z) (sampleFirstPage n).

(** *** The audio poller *)







(** A finished job, as the status read reports it. *)
Definition sampleCompleted : NoteEditor.PollOutcome :=
  NoteEditor.ReadRow
    (Some (NoteEditor.mkAudioResult "completed" (Some "transcript") (Some "summary")
             None None (Some "doc-1"))).

(** *** Sample conversations *)

(** One exchange in the sample session. *)
Definition sampleQuestion : Message :=
  mkMessage "m1" "hello" role_user 100%Z None None None None (Some []) (Some []).

Definition sampleAnswer : Message :=
  mkMessage "m2" "hi there" role_assistant 101%Z (Some false) None None None None None.

Definition sampleChat : AppState :=
  setChatMessages (λ _, [sampleQuestion; sampleAnswer])
    (setChatSessions (λ _, [mkChatSession "s1" "New Chat" 99 99 101 []]) sampleActive).

(** A world in which the AI service reports an error. *)
Definition sampleFailingAIWorld : AIWorld :=
  mkAIWorld (InvokeReturned (Some "The model is overloaded") None) None
    (Failed "unused") "uuid-2" 200%Z.

(** ** Vocabulary of the further properties *)

(** The characters of a string. *)
Definition chars (s : string) : list ascii := list_ascii_of_string s.

(** The characters that open or close markup or an attribute value. *)
Definition isMarkupChar (c : ascii) : Prop :=
  c = "<"%char ∨ c = ">"%char ∨ c = dquote ∨ c = "'"%char.

(** A tag as the editor shows it: not empty, no comma, no white space at
    either end. *)
Definition cleanTag (tag : string) : Prop :=
  tag ≠ "" ∧ Forall (λ c, c ≠ ","%char) (chars tag) ∧ trim tag = tag.


(** Every character of the string is white space. *)
Definition blank (s : string) : Prop := Forall (λ c, isSpace c = true) (chars s).

(** The role name the AI service expects for a message. *)
Definition turnRole (msg : Message) : string :=
  match m_role msg with
  | role_user => "user"
  | role_assistant => "model"
  end.

(** A turn of the history stands for a message of the buffer: it has the
    role the service expects and starts with the text of the message. *)
Definition turnOf (msg : Message) (turn : Turn) : Prop :=
  t_role turn = turnRole msg
  ∧ head (t_parts turn) = Some (TextPart (m_content msg)).

(** [a] is listed no later than [b] in a list ordered by [last_message_at],
    most recent first. *)
Definition recentFirst (a b : ChatSession) : Prop :=
  (s_last_message_at b ≤ s_last_message_at a)%Z.

(** The AI answered and the answer was saved, in "update" mode ([target] is
    the id of the regenerated message) or in "new message" mode. *)
Definition aiSucceeded (target : option string) (w : AIWorld) : Prop :=
  (∃ response, invoked w = InvokeReturned None (Some (Some response)) ∧ response ≠ "")
  ∧ match strOrUndefined target with
    | Some _ => updateDbError w = None
    | None => ∃ row, insertResult w = Ok row
    end.

(** The six tabs of the application. *)
Definition tabs : list string :=
  ["notes"; "recordings"; "schedule"; "chat"; "documents"; "settings"].

(** The two id lists select the same things. *)
Definition sameIds (ids1 ids2 : option (list string)) : Prop :=
  ∀ x, x ∈ arrOrElse ids1 ↔ x ∈ arrOrElse ids2.

(** The five "in progress" hooks of the audio panel. *)
Definition audioFlags (s : NoteEditor.EditorState) : list bool :=
  [NoteEditor.isProcessingAudio s; NoteEditor.isGeneratingAudioNote s;
   NoteEditor.isGeneratingAudioSummary s; NoteEditor.isTranslatingAudio s;
   NoteEditor.isAudioOptionsVisible s].


(** [s'] shows the same audio panel, note text and [onNoteUpdate] calls as
    [s]. *)
Definition samePanel (s s' : NoteEditor.EditorState) : Prop :=
  audioFlags s' = audioFlags s
  ∧ NoteEditor.content s' = NoteEditor.content s
  ∧ NoteEditor.translatedContent s' = NoteEditor.translatedContent s
  ∧ NoteEditor.noteUpdates s' = NoteEditor.noteUpdates s.

(** How a regenerate or retry of the message [target] ends: the message
    carries the AI's answer, or it carries an error text and is flagged. *)
Definition regenerateOutcome (target : string) (w : AIWorld)
    (before after : list Message) : Prop :=
  (aiSucceeded (Some target) w
   ∧ ∃ reply,
       invoked w = InvokeReturned None (Some (Some reply))
       ∧ after = updateMessage target reply (now w) false before)
  ∨ (¬ aiSucceeded (Some target) w
     ∧ ∃ reason,
         after = updateMessage target
                   ("Failed to regenerate response: " ++ reason ++ ". Please try again.")
                   (now w) true before).

(** *** More samples *)

(** The sample chat with a second, older session in the list. *)
Definition sampleTwoSessions : AppState :=
  setChatSessions
    (λ _, [mkChatSession "s1" "New Chat" 99 99 101 [];
           mkChatSession "s0" "Older chat" 40 40 50 []])
    sampleChat.

(** A world in which the store refuses the user's message. *)
Definition sampleUnsavedWorld : SubmitWorld :=
  mkSubmitWorld (Some (mkUser "u1"))
    (Ok (Some (mkSessionRow "s1" "New Chat" 99 99 99 None)))
    (Ok [mkSessionRow "s1" "New Chat" 99 99 99 None])
    (Failed "no document") (Failed "insert refused") 100%Z sampleAIWorld.

(** The editor with one job started and its first status read in flight. *)
Definition samplePolling : NoteEditor.EditorState :=
  NoteEditor.run [NoteEditor.StartJob NoteEditor.FullNote "job-1"]
    (NoteEditor.mounted (Some "u1") "draft").
(** * Properties *)

(** ** Strings *)

Lemma append_cons (x : ascii) (a b : string) : String x a ++ b = String x (a ++ b).
Proof. reflexivity. Qed.

Lemma length_append (a b : string) :
  String.length (a ++ b) = String.length a + String.length b.
Proof.
  induction a as [|c a IH]; [done|].
  rewrite append_cons. simpl. by rewrite IH.
Qed.

Lemma length_substring_0 (n : nat) (s : string) :
  String.length (substring 0 n s) = n `min` String.length s.
Proof.
  revert s. induction n as [|n IH]; intros [|c s]; simpl; try done.
  by rewrite IH.
Qed.

Lemma append_assoc (a b c : string) : (a ++ b) ++ c = a ++ (b ++ c).
Proof. induction a as [|x a IH]; [done|]. by rewrite !append_cons, IH. Qed.

Lemma append_empty_r (a : string) : a ++ "" = a.
Proof. induction a as [|x a IH]; [done|]. by rewrite append_cons, IH. Qed.

(** ** Context builder *)

Lemma truncated_cutTo (limit : nat) (s : string) : cutTo limit s (truncated limit s).
Proof.
  unfold cutTo, truncated, ELLIPSIS.
  destruct (Nat.ltb_spec limit (String.length s)) as [Hlong|Hshort].
  - rewrite length_append, length_substring_0.
    split; [lia|]. split; [|lia]. intros _. split; [done | lia].
  - split; [lia|]. split; [lia | done].
Qed.

Lemma appendDocument_block (context : string) (doc : Document) :
  appendDocument context doc = context ++ documentBlock doc.
Proof.
  unfold documentBlock, appendDocument. simpl.
  by rewrite !append_assoc.
Qed.

Lemma appendNote_block (context : string) (note : Note) :
  appendNote context note = context ++ noteBlock note.
Proof.
  unfold noteBlock, appendNote. simpl.
  destruct (noteContent note), (truthy (n_aiSummary note)),
    (0 <? length (arrOrElse (n_tags note)))%nat; simpl;
    by rewrite !append_assoc.
Qed.

Lemma concat_empty_cons (x : string) (xs : list string) :
  String.concat "" (x :: xs) = x ++ String.concat "" xs.
Proof. destruct xs; simpl; [by rewrite append_empty_r | done]. Qed.

Lemma fold_blocks {A} (append : string → A → string) (block : A → string)
    (selected : list A) (context : string) :
  (∀ c x, append c x = c ++ block x) →
  fold_left append selected context
  = context ++ String.concat "" (block <$> selected).
Proof.
  intros Happend. revert context.
  induction selected as [|x xs IH]; intros context.
  - simpl. by rewrite append_empty_r.
  - rewrite fmap_cons, concat_empty_cons. simpl.
    by rewrite IH, Happend, append_assoc.
Qed.

Lemma contextText_sections dIds nIds allDocuments allNotes :
  contextText dIds nIds allDocuments allNotes
  = contextSection "DOCUMENTS:" documentBlock (selectDocuments dIds allDocuments)
    ++ contextSection "NOTES:" noteBlock (selectNotes nIds allNotes).
Proof.
  unfold contextText, contextSection.
  destruct (selectDocuments dIds allDocuments) as [|doc docs] eqn:Hdocs;
    destruct (selectNotes nIds allNotes) as [|note notes'] eqn:Hnotes;
    cbn [length Nat.ltb Nat.leb];
    rewrite ?(fold_blocks _ _ _ _ appendDocument_block),
            ?(fold_blocks _ _ _ _ appendNote_block);
    rewrite ?append_assoc; simpl; by rewrite ?append_empty_r.
Qed.

(** The [Content] line of a document that has extracted content. *)
Lemma contentLine_extracted (doc : Document) (s : string) :
  d_content_extracted doc = Some s → s ≠ "" →
  contentLine doc = contentLabel doc ++ truncated DOCUMENT_LIMIT s ++ nl.
Proof.
  intros Hs Hne. unfold contentLine, documentContent, contentLabel.
  rewrite Hs. simpl. destruct (String.eqb_spec s ""); [done|]. simpl.
  by destruct (String.eqb (d_type doc) "image").
Qed.

Lemma documentBlock_lines (doc : Document) :
  documentBlock doc
  = "Title: " ++ d_title doc ++ nl ++ "File: " ++ d_file_name doc ++ nl
    ++ typeLine doc ++ contentLine doc ++ nl.
Proof. unfold documentBlock, appendDocument. simpl. by rewrite !append_assoc. Qed.

Lemma noteBlock_content (note : Note) (s : string) :
  n_content note = Some s → s ≠ "" →
  noteBlock note
  = "Title: " ++ n_title note ++ nl ++ "Category: " ++ n_category note ++ nl
    ++ "Content: " ++ truncated NOTE_LIMIT s ++ nl ++ noteTail note.
Proof.
  intros Hs Hne. unfold noteBlock, appendNote, noteContent, noteTail.
  rewrite Hs. simpl. destruct (String.eqb_spec s ""); [done|]. simpl.
  destruct (truthy (n_aiSummary note)),
    (0 <? length (arrOrElse (n_tags note)))%nat; simpl;
    by rewrite !append_assoc.
Qed.

(** C4. For every input to [buildRichContext], the output is the
    [DOCUMENTS:] section followed by the [NOTES:] section, one block per
    selected document or note; the extracted content a document's block
    includes is at most 2000 characters plus the ellipsis marker (content
    longer than 2000 characters is cut to exactly its first 2000 characters
    followed by the marker, shorter content is included as it is), and the
    content a note's block includes is bounded the same way by 1500. *)
Theorem buildRichContext_content_bounded
    (dIds nIds : option (list string)) (allDocuments : option (list Document))
    (allNotes : option (list Note)) (st : AppState) :
  fst (buildRichContext dIds nIds allDocuments allNotes st)
  = contextSection "DOCUMENTS:" documentBlock (selectDocuments dIds allDocuments)
    ++ contextSection "NOTES:" noteBlock (selectNotes nIds allNotes)
  ∧ (∀ doc s, d_content_extracted doc = Some s → s ≠ "" →
       ∃ content,
         documentBlock doc
         = "Title: " ++ d_title doc ++ nl ++ "File: " ++ d_file_name doc ++ nl
           ++ typeLine doc ++ (contentLabel doc ++ content ++ nl) ++ nl
         ∧ cutTo 2000 s content)
  ∧ (∀ note s, n_content note = Some s → s ≠ "" →
       ∃ content,
         noteBlock note
         = "Title: " ++ n_title note ++ nl ++ "Category: " ++ n_category note ++ nl
           ++ "Content: " ++ content ++ nl ++ noteTail note
         ∧ cutTo 1500 s content).
Proof.
  split; [apply contextText_sections|]. split.
  - intros doc s Hs Hne. exists (truncated DOCUMENT_LIMIT s). split.
    + by rewrite documentBlock_lines, (contentLine_extracted doc s).
    + apply truncated_cutTo.
  - intros note s Hs Hne. exists (truncated NOTE_LIMIT s). split.
    + by apply noteBlock_content.
    + apply truncated_cutTo.
Qed.

(** A document whose extracted content is 2001 characters long: its block
    carries the first 2000 of them and the marker. *)
Lemma buildRichContext_content_bounded_witness :
  ∃ content,
    documentBlock (mkDocument "d1" "Syllabus" "syllabus.pdf" "text" "u"
                     (Some (replicateChar 2001 "a")) None None)
    = "Title: Syllabus" ++ nl ++ "File: syllabus.pdf" ++ nl
      ++ "Type: Text Document" ++ nl ++ ("Content: " ++ content ++ nl) ++ nl
    ∧ content = replicateChar 2000 "a" ++ "...".
Proof.
  pose (doc := mkDocument "d1" "Syllabus" "syllabus.pdf" "text" "u"
                 (Some (replicateChar 2001 "a")) None None).
  pose (st := mkAppState None [] None [] [] false false 10 true true [] [] [] []).
  destruct (buildRichContext_content_bounded None None None None st)
    as (_ & Hdoc & _).
  destruct (Hdoc doc (replicateChar 2001 "a") eq_refl) as (content & Hblock & Hcut).
  { by vm_compute. }
  exists content. split; [exact Hblock|].
  destruct Hcut as (_ & Hlong & _).
  destruct Hlong as [-> _]; [vm_compute; lia|].
  by vm_compute.
Defined.

(** ** Determinism and purity of the context builder *)

(** The context depends on the collections only through the selected
    documents and notes. *)
Lemma contextText_selected dIds nIds docs1 notes1 docs2 notes2 :
  selectDocuments dIds docs1 = selectDocuments dIds docs2 →
  selectNotes nIds notes1 = selectNotes nIds notes2 →
  contextText dIds nIds docs1 notes1 = contextText dIds nIds docs2 notes2.
Proof. intros Hd Hn. by rewrite !contextText_sections, Hd, Hn. Qed.


(** ** Session store and message store: the flags and the failure paths *)

(** The running counter is 10 at first and grows by 10 with each "load
    more". *)
Lemma chatSessionsLoadedCount_after_load_more (u : option User) (k : nat) :
  chatSessionsLoadedCount (Nat.iter k handleLoadMoreChatSessions (initialState u))
  = 10 + 10 * k.
Proof.
  induction k as [|k IH]; [done|].
  rewrite Nat.iter_succ. unfold handleLoadMoreChatSessions at 1. simpl.
  rewrite IH. unfold CHAT_SESSIONS_PER_PAGE. lia.
Qed.

(** C8, as amended. A load of the session list that returns rows sets
    "has more" to true exactly when the number of rows equals the size it
    requested, which is the running counter [chatSessionsLoadedCount] (10 at
    first, 10 more after each "load more"), not always 10; a load of a message
    page that returns rows, the first page or an older one, sets "has more
    older" to true exactly when 20 rows came back. *)
Theorem has_more_iff_page_full :
  (∀ closure u rows st,
     user closure = Some u →
     hasMoreChatSessions (loadChatSessions closure (Ok rows) st) = true
     ↔ length rows = chatSessionsLoadedCount closure)
  ∧ (∀ closure u sessionId rows clock st,
       user closure = Some u →
       hasMoreMessages (loadSessionMessages closure sessionId (Ok rows) clock st) = true
       ↔ length rows = 20)
  ∧ (∀ closure u activeId oldest rest rows clock st,
       user closure = Some u →
       activeChatSessionId closure = Some activeId → activeId ≠ "" →
       chatMessages closure = oldest :: rest →
       hasMoreMessages (handleLoadOlderChatMessages closure (Ok rows) clock st) = true
       ↔ length rows = 20).
Proof.
  split; [|split].
  - intros closure u rows st Hu. unfold loadChatSessions. rewrite Hu. simpl.
    rewrite length_fmap. apply bool_decide_eq_true.
  - intros closure u sessionId rows clock st Hu.
    unfold loadSessionMessages. rewrite Hu. simpl. apply bool_decide_eq_true.
  - intros closure u activeId oldest rest rows clock st Hu Hactive Hne Hbuf.
    unfold handleLoadOlderChatMessages, strOrUndefined.
    rewrite Hactive, Hu, Hbuf. simpl.
    destruct (String.eqb_spec activeId ""); [done|]. simpl.
    apply bool_decide_eq_true.
Qed.

Lemma has_more_iff_page_full_witness :
  hasMoreChatSessions
    (loadChatSessions (initialState (Some (mkUser "u1")))
       (Ok (sampleSessionRows 10)) (initialState (Some (mkUser "u1")))) = true
  ↔ length (sampleSessionRows 10) = 10.
Proof.
  destruct has_more_iff_page_full as (Hsessions & _ & _).
  apply (Hsessions (initialState (Some (mkUser "u1"))) (mkUser "u1")).
  reflexivity.
Defined.

(** C8, as stated, fails: after one "load more" the list is requested with
    size 20, and a load that returns exactly 10 rows sets the flag to false. *)
Lemma has_more_sessions_not_fixed_page_size :
  let st := handleLoadMoreChatSessions (initialState (Some (mkUser "u1"))) in
  length (sampleSessionRows 10) = CHAT_SESSIONS_PER_PAGE
  ∧ hasMoreChatSessions (loadChatSessions st (Ok (sampleSessionRows 10)) st) = false.
Proof. by vm_compute. Qed.

(** C10. If the fetch inside [loadSessionMessages] fails, the message buffer
    is set to the empty list, whatever it held before. *)
Theorem failed_session_load_clears_messages closure u sessionId message clock st :
  user closure = Some u →
  chatMessages (loadSessionMessages closure sessionId (Failed message) clock st) = [].
Proof. intros Hu. unfold loadSessionMessages. by rewrite Hu. Qed.

(** C7. Deleting the active session when it is the only session of the
    local list leaves no active session, an empty message buffer and "has
    more older messages" false; the effect that then runs on
    [activeChatSessionId] keeps them so. *)
Theorem delete_only_active_session closure u session reloadResp st :
  user closure = Some u →
  chatSessions closure = [session] →
  activeChatSessionId closure = Some (s_id session) →
  let st' := deleteChatSession closure (s_id session) None reloadResp st in
  (activeChatSessionId st' = None ∧ chatMessages st' = [] ∧ hasMoreMessages st' = false)
  ∧ ∀ resp clock,
      activeChatSessionId (activeSessionEffect resp clock st') = None
      ∧ chatMessages (activeSessionEffect resp clock st') = []
      ∧ hasMoreMessages (activeSessionEffect resp clock st') = false.
Proof.
  intros Hu Hsessions Hactive st'.
  assert (Hst' : activeChatSessionId st' = None ∧ chatMessages st' = []
                 ∧ hasMoreMessages st' = false).
  { subst st'. unfold deleteChatSession. rewrite Hu, Hsessions, Hactive. simpl.
    rewrite bool_decide_eq_true_2 by done. done. }
  split; [done|]. intros resp clock.
  destruct Hst' as (Hid & Hbuf & Hmore).
  unfold activeSessionEffect. rewrite Hid. done.
Qed.

(** ** AI response orchestrator *)

Lemma sameHooks_refl st : sameHooks st st.
Proof. by repeat split. Qed.

Lemma sameHooks_trans a b c : sameHooks a b → sameHooks b c → sameHooks a c.
Proof.
  unfold sameHooks. intros Hab Hbc.
  destruct Hab as (?&?&?&?&?&?&?&?&?&?&?&?&?).
  destruct Hbc as (?&?&?&?&?&?&?&?&?&?&?&?&?).
  repeat split; congruence.
Qed.

(** Building the history only writes to the console. *)
Lemma appendHistoricalTurn_hooks closure acc msg st :
  sameHooks (snd acc) st → sameHooks (snd (appendHistoricalTurn closure acc msg)) st.
Proof.
  destruct acc as [chatHistory st0]. simpl. intros Hst0.
  unfold appendHistoricalTurn.
  destruct (m_role msg); [|done].
  destruct (hasAttachments msg); [|done].
  unfold buildRichContext. cbn beta iota zeta.
  destruct (negb _);
    simpl; (eapply sameHooks_trans; [|exact Hst0]); by repeat split.
Qed.

Lemma buildChatHistory_hooks closure content target image mime st :
  sameHooks (snd (buildChatHistory closure content target image mime st)) st.
Proof.
  unfold buildChatHistory.
  set (msgs := List.filter _ _). clearbody msgs.
  assert (Hfold : ∀ acc, sameHooks (snd acc) st →
            sameHooks (snd (fold_left (appendHistoricalTurn closure) msgs acc)) st).
  { induction msgs as [|msg msgs IH]; intros acc Hacc; [done|].
    simpl. apply IH. by apply appendHistoricalTurn_hooks. }
  specialize (Hfold ([], st) (sameHooks_refl st)).
  destruct (fold_left _ _ _) as [chatHistory st1]. simpl in *.
  by destruct (strOrUndefined image), (strOrUndefined mime).
Qed.

(** C2. A failed AI call in "new message" mode (the remote function
    reports an error, the call throws, or the response is empty) appends
    exactly one message to the buffer: an assistant message flagged
    [isError: true] whose [originalUserMessageContent] is the user's text.
    The messages already in the buffer stay as they are. *)
Theorem failed_new_message_appends_one_error
    closure userMessageContent currentUser sessionId attachedDocumentIds
    attachedNoteIds aiMessageIdToUpdate imageDataBase64 imageMimeType w st :
  sessionId ≠ "" →
  truthy aiMessageIdToUpdate = false →
  callFailed (invoked w) →
  ∃ errorMessage,
    chatMessages
      (_getAIResponse closure userMessageContent (Some currentUser) sessionId
         attachedDocumentIds attachedNoteIds aiMessageIdToUpdate
         imageDataBase64 imageMimeType w st)
    = (chatMessages st ++ [errorMessage])%list
    ∧ m_role errorMessage = role_assistant
    ∧ m_isError errorMessage = Some true
    ∧ m_originalUserMessageContent errorMessage = Some userMessageContent.
Proof.
  intros Hsession Hnew Hfailed.
  unfold _getAIResponse, strOrUndefined at 1. simpl.
  destruct (String.eqb_spec sessionId ""); [done|]. simpl.
  unfold tryGetAIResponse.
  pose proof (buildChatHistory_hooks closure userMessageContent aiMessageIdToUpdate
                imageDataBase64 imageMimeType (setIsAILoading true st)) as Hhooks.
  destruct (buildChatHistory _ _ _ _ _ _) as [chatHistory st1]. simpl in Hhooks.
  destruct Hhooks as (_ & _ & _ & Hmessages & _).
  assert (Hcatch : ∀ message, ∃ errorMessage,
    chatMessages
      (setIsAILoading false
         (catchGetAIResponse userMessageContent aiMessageIdToUpdate message w
            (emit (InvokeGeminiChat sessionId chatHistory) st1)))
    = (chatMessages st ++ [errorMessage])%list
    ∧ m_role errorMessage = role_assistant
    ∧ m_isError errorMessage = Some true
    ∧ m_originalUserMessageContent errorMessage = Some userMessageContent).
  { intros message. unfold catchGetAIResponse, strOrUndefined. rewrite Hnew.
    eexists. simpl. rewrite Hmessages. simpl. by repeat split. }
  destruct (invoked w) as [message|[message|] [response|]]; simpl in Hfailed;
    try apply Hcatch.
  unfold strOrUndefined at 1. rewrite Hfailed. apply Hcatch.
Qed.

(** ** Regenerating and retrying *)

Lemma onlyRegenerated_refl target msg : onlyRegenerated target msg msg.
Proof. by repeat split. Qed.

Lemma updateMessage_onlyRegenerated target content timestamp isError prev :
  Forall2 (onlyRegenerated target) prev
          (updateMessage target content timestamp isError prev).
Proof.
  unfold updateMessage. induction prev as [|msg prev IH]; [constructor|].
  rewrite fmap_cons. constructor; [|exact IH].
  destruct (String.eqb_spec (m_id msg) target) as [Heq|Hne].
  - by repeat split.
  - apply onlyRegenerated_refl.
Qed.

Lemma updateMessage_twice target c1 t1 e1 c2 t2 e2 prev :
  updateMessage target c2 t2 e2 (updateMessage target c1 t1 e1 prev)
  = updateMessage target c2 t2 e2 prev.
Proof.
  unfold updateMessage. rewrite <- list_fmap_compose.
  apply list_fmap_ext. intros _ msg _. simpl.
  destruct (String.eqb_spec (m_id msg) target) as [Heq|Hne]; simpl.
  - by rewrite (proj2 (String.eqb_eq _ _) Heq).
  - by rewrite (proj2 (String.eqb_neq _ _) Hne).
Qed.

(** In "update" mode [_getAIResponse] leaves the buffer alone or rewrites
    the targeted message, on success as on failure. *)
Lemma getAIResponse_update_messages
    closure userMessageContent currentUser sessionId attachedDocumentIds
    attachedNoteIds target imageDataBase64 imageMimeType w st :
  target ≠ "" →
  let st' :=
    _getAIResponse closure userMessageContent currentUser sessionId
      attachedDocumentIds attachedNoteIds (Some target)
      imageDataBase64 imageMimeType w st in
  chatMessages st' = chatMessages st
  ∨ ∃ content isError,
      chatMessages st' = updateMessage target content (now w) isError (chatMessages st).
Proof.
  intros Htarget. unfold _getAIResponse.
  destruct currentUser as [currentUser|]; [|by left].
  destruct (strOrUndefined (Some sessionId)) as [sid|]; [|by left].
  unfold tryGetAIResponse.
  pose proof (buildChatHistory_hooks closure userMessageContent (Some target)
                imageDataBase64 imageMimeType (setIsAILoading true st)) as Hhooks.
  destruct (buildChatHistory _ _ _ _ _ _) as [chatHistory st1]. simpl in Hhooks.
  destruct Hhooks as (_ & _ & _ & Hmessages & _).
  assert (Htruthy : strOrUndefined (Some target) = Some target).
  { unfold strOrUndefined. simpl. by destruct (String.eqb_spec target ""). }
  assert (Hcatch : ∀ message st2,
    chatMessages st2 = chatMessages st →
    ∃ content isError,
      chatMessages
        (setIsAILoading false
           (catchGetAIResponse userMessageContent (Some target) message w st2))
      = updateMessage target content (now w) isError (chatMessages st)).
  { intros message st2 Hst2. unfold catchGetAIResponse. rewrite Htruthy.
    do 2 eexists. simpl. by rewrite Hst2. }
  right.
  destruct (invoked w) as [message|[message|] [response|]]; try by apply Hcatch.
  destruct (strOrUndefined response) as [aiResponseContent|]; [|by apply Hcatch].
  rewrite Htruthy.
  destruct (updateDbError w); [by apply Hcatch|].
  do 2 eexists. simpl. by rewrite Hmessages.
Qed.

(** C3. A regenerate or retry that targets the assistant message with id
    [M] changes, on success and on failure alike, no message but the one with
    id [M], and of that one only the content, the timestamp and the error
    flag: the buffer keeps its length and order, every other message is
    identical, and [M] keeps its id, role, attachment ids, image fields (and
    the remembered user text). *)
Theorem regenerate_changes_only_target :
  (∀ closure lastUserMessageContent thinkingAt w st lastAssistantMessage,
     findLast (λ msg, bool_decide (m_role msg = role_assistant)) (chatMessages closure)
       = Some lastAssistantMessage →
     m_id lastAssistantMessage ≠ "" →
     Forall2 (onlyRegenerated (m_id lastAssistantMessage))
       (chatMessages st)
       (chatMessages
          (handleRegenerateResponse closure lastUserMessageContent thinkingAt w st)))
  ∧ (∀ closure originalUserMessageContent failedAiMessageId thinkingAt w st,
       failedAiMessageId ≠ "" →
       Forall2 (onlyRegenerated failedAiMessageId)
         (chatMessages st)
         (chatMessages
            (handleRetryFailedMessage closure originalUserMessageContent
               failedAiMessageId thinkingAt w st))).
Proof.
  assert (Hframe : ∀ closure content currentUser sessionId docIds noteIds
                     target thinkingAt w st,
    target ≠ "" →
    Forall2 (onlyRegenerated target) (chatMessages st)
      (chatMessages
         (_getAIResponse closure content currentUser sessionId docIds noteIds
            (Some target) None None w
            (setChatMessages (markThinking target thinkingAt) st)))).
  { intros closure content currentUser sessionId docIds noteIds target
      thinkingAt w st Htarget.
    destruct (getAIResponse_update_messages closure content currentUser sessionId
                docIds noteIds target None None w
                (setChatMessages (markThinking target thinkingAt) st) Htarget)
      as [->|(c & e & ->)]; simpl; unfold markThinking.
    - apply updateMessage_onlyRegenerated.
    - rewrite updateMessage_twice. apply updateMessage_onlyRegenerated. }
  assert (Hsame : ∀ target st,
    Forall2 (onlyRegenerated target) (chatMessages st) (chatMessages st)).
  { intros target st. apply Forall_Forall2_diag, Forall_forall.
    intros msg _. apply onlyRegenerated_refl. }
  split.
  - intros closure content thinkingAt w st lastAssistantMessage Hlast Htarget.
    unfold handleRegenerateResponse.
    destruct (user closure); [|apply Hsame].
    destruct (strOrUndefined (activeChatSessionId closure)); [|apply Hsame].
    destruct (findLast (λ msg, bool_decide (m_role msg = role_user)) _);
      [|apply Hsame].
    rewrite Hlast. by apply Hframe.
  - intros closure content failedAiMessageId thinkingAt w st Htarget.
    unfold handleRetryFailedMessage.
    destruct (user closure); [|apply Hsame].
    destruct (strOrUndefined (activeChatSessionId closure)); [|apply Hsame].
    destruct (findLast _ _); [|apply Hsame].
    by apply Hframe.
Qed.

(** ** The two flags of a submission *)

Lemma quietStep_refl st : quietStep st st.
Proof. exists []. by rewrite app_nil_r. Qed.

Lemma quietStep_trans a b c : quietStep a b → quietStep b c → quietStep a c.
Proof.
  intros (t1 & He1 & Hq1 & Ha1 & Hs1) (t2 & He2 & Hq2 & Ha2 & Hs2).
  exists (t1 ++ t2)%list. rewrite He2, He1, app_assoc.
  repeat split; [by apply Forall_app | congruence | congruence].
Qed.

Lemma quietStep_same st st' :
  effects st' = effects st →
  isAILoading st' = isAILoading st →
  isSubmittingUserMessage st' = isSubmittingUserMessage st →
  quietStep st st'.
Proof. intros He Ha Hs. exists []. by rewrite app_nil_r. Qed.

Lemma quietStep_sameHooks st st' : sameHooks st' st → quietStep st st'.
Proof.
  intros (_&_&_&_&_&Hs&Ha&_&_&_&_&_&He). by apply quietStep_same.
Qed.

Lemma quietStep_emit st0 st e : quiet e → quietStep st0 st → quietStep st0 (emit e st).
Proof.
  intros Hq Hst. eapply quietStep_trans; [exact Hst|].
  exists [e]. repeat split. by constructor.
Qed.

Lemma quietStep_after (f : AppState → AppState) st0 st :
  (∀ st, quietStep st (f st)) → quietStep st0 st → quietStep st0 (f st).
Proof. intros Hf Hst. eapply quietStep_trans; [exact Hst | apply Hf]. Qed.

Lemma quietStep_setChatSessions f st0 st :
  quietStep st0 st → quietStep st0 (setChatSessions f st).
Proof. apply quietStep_after. intros. by apply quietStep_same. Qed.

Lemma quietStep_setActiveChatSessionId v st0 st :
  quietStep st0 st → quietStep st0 (setActiveChatSessionId v st).
Proof. apply quietStep_after. intros. by apply quietStep_same. Qed.

Lemma quietStep_setChatMessages f st0 st :
  quietStep st0 st → quietStep st0 (setChatMessages f st).
Proof. apply quietStep_after. intros. by apply quietStep_same. Qed.

Lemma quietStep_setSelectedDocumentIds v st0 st :
  quietStep st0 st → quietStep st0 (setSelectedDocumentIds v st).
Proof. apply quietStep_after. intros. by apply quietStep_same. Qed.

Lemma quietStep_setChatSessionsLoadedCount f st0 st :
  quietStep st0 st → quietStep st0 (setChatSessionsLoadedCount f st).
Proof. apply quietStep_after. intros. by apply quietStep_same. Qed.

Lemma quietStep_setHasMoreChatSessions v st0 st :
  quietStep st0 st → quietStep st0 (setHasMoreChatSessions v st).
Proof. apply quietStep_after. intros. by apply quietStep_same. Qed.

Lemma quietStep_setHasMoreMessages v st0 st :
  quietStep st0 st → quietStep st0 (setHasMoreMessages v st).
Proof. apply quietStep_after. intros. by apply quietStep_same. Qed.

Lemma quietStep_setDocuments f st0 st :
  quietStep st0 st → quietStep st0 (setDocuments f st).
Proof. apply quietStep_after. intros. by apply quietStep_same. Qed.

Create HintDb quiet.
#[local] Hint Resolve quietStep_refl quietStep_emit quietStep_setChatSessions
  quietStep_setActiveChatSessionId quietStep_setChatMessages
  quietStep_setSelectedDocumentIds quietStep_setChatSessionsLoadedCount
  quietStep_setHasMoreChatSessions quietStep_setHasMoreMessages
  quietStep_setDocuments : quiet.
#[local] Hint Extern 1 (quiet _) => exact I : quiet.

Lemma quietStep_loadChatSessions closure resp st0 st :
  quietStep st0 st → quietStep st0 (loadChatSessions closure resp st).
Proof.
  intros Hst. unfold loadChatSessions.
  destruct (user closure); [|done]. destruct resp; auto 10 with quiet.
Qed.
#[local] Hint Resolve quietStep_loadChatSessions : quiet.

Lemma quietStep_createNewChatSession closure insertResp reloadResp st0 st :
  quietStep st0 st →
  quietStep st0 (snd (createNewChatSession closure insertResp reloadResp st)).
Proof.
  intros Hst. unfold createNewChatSession.
  destruct (user closure); [|done].
  destruct insertResp as [[data|]|]; simpl; auto 10 with quiet.
Qed.

Lemma quietStep_refreshUploadedDocument docId resp st0 st :
  quietStep st0 st → quietStep st0 (snd (refreshUploadedDocument docId resp st)).
Proof.
  intros Hst. unfold refreshUploadedDocument.
  destruct resp; simpl; auto 10 with quiet.
Qed.

Lemma quietStep_catchGetAIResponse content target message w st0 st :
  quietStep st0 st → quietStep st0 (catchGetAIResponse content target message w st).
Proof.
  intros Hst. unfold catchGetAIResponse.
  destruct (strOrUndefined target); auto with quiet.
Qed.

(** After the AI call the [try] block writes neither flag. *)
Lemma tryGetAIResponse_effects
    closure content currentUser sessionId docIds target image mime w st :
  ∃ chatHistory st1,
    sameHooks st1 st
    ∧ quietStep (emit (InvokeGeminiChat sessionId chatHistory) st1)
        (snd (tryGetAIResponse closure content currentUser sessionId docIds
                target image mime w st)).
Proof.
  unfold tryGetAIResponse.
  pose proof (buildChatHistory_hooks closure content target image mime st) as Hhooks.
  destruct (buildChatHistory _ _ _ _ _ _) as [chatHistory st1]. simpl in Hhooks.
  exists chatHistory, st1. split; [done|].
  destruct (invoked w) as [message|[message|] [response|]]; simpl;
    auto with quiet.
  destruct (strOrUndefined response); simpl; auto with quiet.
  destruct (strOrUndefined target).
  - destruct (updateDbError w); simpl; auto 10 with quiet.
  - destruct (insertResult w); simpl; auto 10 with quiet.
Qed.

(** [_getAIResponse] either returns at its guard, or raises the "AI
    loading" flag, calls the AI, and lowers the flag on its way out. *)
Lemma getAIResponse_effects
    closure content currentUser sessionId docIds noteIds target image mime w st :
  let st' :=
    _getAIResponse closure content currentUser sessionId docIds noteIds
      target image mime w st in
  isSubmittingUserMessage st' = isSubmittingUserMessage st
  ∧ ((st' = st)
     ∨ (isAILoading st' = false
        ∧ ∃ sid chatHistory after,
            effects st'
            = (effects st ++ [SetIsAILoading true; InvokeGeminiChat sid chatHistory]
                 ++ after ++ [SetIsAILoading false])%list
            ∧ Forall quiet after)).
Proof.
  unfold _getAIResponse.
  destruct currentUser as [currentUser|]; [|by split; [|left]].
  destruct (strOrUndefined (Some sessionId)) as [sid|]; [|by split; [|left]].
  destruct (tryGetAIResponse_effects closure content currentUser sid docIds
              target image mime w (setIsAILoading true st))
    as (chatHistory & st1 & Hbuild & Htry).
  destruct (tryGetAIResponse _ _ _ _ _ _ _ _ _ _) as [thrown st2].
  simpl in Htry.
  assert (Hcatch : quietStep (emit (InvokeGeminiChat sid chatHistory) st1)
            match thrown with
            | Some message => catchGetAIResponse content target message w st2
            | None => st2
            end).
  { destruct thrown; [by apply quietStep_catchGetAIResponse | done]. }
  clear Htry. set (st3 := match thrown with Some _ => _ | None => _ end) in *.
  clearbody st3.
  destruct Hbuild as (_&_&_&_&_&Hs1&Ha1&_&_&_&_&_&He1).
  destruct Hcatch as (t2 & He2 & Hq2 & Ha2 & Hs2).
  simpl in *. split; [congruence|]. right. split; [done|].
  exists sid, chatHistory, t2. split; [|done].
  rewrite He2, He1. by rewrite <- !app_assoc.
Qed.

Lemma trySubmit_effects
    closure trimmedMessage docIds noteIds imageUrl mime image w st :
  let st' := trySubmit closure trimmedMessage docIds noteIds imageUrl mime image w st in
  isSubmittingUserMessage st' = isSubmittingUserMessage st
  ∧ (isAILoading st' = isAILoading st ∨ isAILoading st' = false)
  ∧ ∃ before ai after,
      effects st' = (effects st ++ before ++ ai ++ after)%list
      ∧ Forall quiet before ∧ aiBracket ai ∧ Forall quiet after.
Proof.
  assert (Hquiet : ∀ st', quietStep st st' →
    isSubmittingUserMessage st' = isSubmittingUserMessage st
    ∧ (isAILoading st' = isAILoading st ∨ isAILoading st' = false)
    ∧ ∃ before ai after,
        effects st' = (effects st ++ before ++ ai ++ after)%list
        ∧ Forall quiet before ∧ aiBracket ai ∧ Forall quiet after).
  { intros st' (t & He & Hq & Ha & Hs). split; [done|]. split; [by left|].
    exists t, [], []. rewrite He, !app_nil_r. repeat split; try done. by left. }
  unfold trySubmit.
  destruct (authUser w) as [currentUser|]; [|apply Hquiet; auto with quiet].
  set (st1 := emit AuthGetUser st).
  assert (H1 : quietStep st st1) by (subst st1; auto with quiet).
  clearbody st1.
  match goal with
  | |- context [match ?x with Some _ => _ | None => let '(_, _) := ?c in _ end] =>
      pose proof (quietStep_createNewChatSession closure (sessionInsert w)
                    (sessionsReload w) st st1 H1) as Hcreate;
      destruct c as [created st2] eqn:Hc
  end.
  simpl in Hcreate.
  set (session := match strOrUndefined (activeChatSessionId closure) with
                  | Some id => (Some id, st1)
                  | None => (strOrUndefined created, st2)
                  end).
  assert (H2 : quietStep st (snd session)).
  { subst session. by destruct (strOrUndefined (activeChatSessionId closure)). }
  destruct session as [[currentSessionId|] st3]; simpl in H2; [|by apply Hquiet].
  set (st4 := match strOrUndefined imageUrl with Some _ => _ | None => _ end).
  assert (H4 : quietStep st st4).
  { subst st4. destruct (strOrUndefined imageUrl); [|done].
    destruct (0 <? _)%nat; [|done].
    destruct (strOrUndefined (findImageDocId _ _ _)); [|done].
    by apply quietStep_refreshUploadedDocument. }
  clearbody st4.
  destruct (userMessageInsert w) as [userMessageData|];
    [|apply Hquiet; auto with quiet].
  set (newUserMessage := mkMessage _ _ _ _ _ _ _ _ _ _).
  set (st5 := setChatMessages _ _).
  assert (H5 : quietStep st st5) by (subst st5; auto 10 with quiet).
  clearbody st5.
  pose proof (getAIResponse_effects closure trimmedMessage (Some currentUser)
                currentSessionId (arrOrElse docIds) (arrOrElse noteIds) None
                image mime (aiWorld w) st5) as (Hs6 & Hai).
  set (st6 := _getAIResponse _ _ _ _ _ _ _ _ _ _ _) in *. clearbody st6.
  destruct H5 as (t5 & He5 & Hq5 & Ha5 & Hs5).
  destruct Hai as [->|(Ha6 & sid & chatHistory & after & He6 & Hq6)].
  - apply Hquiet. apply quietStep_emit; [done|]. by exists t5.
  - simpl. split; [congruence|]. split; [by right|].
    exists t5, ([SetIsAILoading true; InvokeGeminiChat sid chatHistory]
                ++ after ++ [SetIsAILoading false])%list,
           [UpdateChatSession currentSessionId (arrOrElse docIds)].
    rewrite He6, He5. split; [by rewrite <- !app_assoc|].
    split; [done|]. split; [|by repeat constructor].
    right. by exists sid, chatHistory, after.
Qed.

(** C6, as amended. An invocation of [handleSubmit] that its opening guard
    rejects (nothing to send, or one of the two flags already up) changes
    nothing, so a flag that was up stays up.  An invocation that passes the
    guard raises [isSubmittingUserMessage] before anything else and lowers it
    as its last step; [isAILoading] is raised by [_getAIResponse] right
    before the AI call, not at the start of the submission, and lowered when
    that routine exits; on every path both flags are false afterwards. *)
Theorem submission_flags
    closure messageContent docIds noteIds imageUrl mime image w st :
  let st' := handleSubmit closure messageContent docIds noteIds imageUrl mime image w st in
  (submitRejected closure messageContent docIds noteIds imageUrl = true → st' = st)
  ∧ (submitRejected closure messageContent docIds noteIds imageUrl = false →
     isAILoading st = isAILoading closure →
     isSubmittingUserMessage st' = false
     ∧ isAILoading st' = false
     ∧ ∃ before ai after,
         effects st'
         = (effects st ++ [SetIsSubmittingUserMessage true] ++ before ++ ai ++ after
              ++ [SetIsSubmittingUserMessage false])%list
         ∧ Forall quiet before ∧ aiBracket ai ∧ Forall quiet after).
Proof.
  unfold handleSubmit. split; intros Hguard; rewrite Hguard; [done|].
  intros Hcurrent.
  assert (Hidle : isAILoading st = false).
  { rewrite Hcurrent. unfold submitRejected in Hguard.
    destruct (isAILoading closure); [|done].
    by rewrite orb_true_r in Hguard. }
  pose proof (trySubmit_effects closure (trim messageContent) docIds noteIds
                imageUrl mime image w (setIsSubmittingUserMessage true st))
    as (_ & Hai & before & ai & after & He & Hqb & Hbracket & Hqa).
  set (st1 := trySubmit _ _ _ _ _ _ _ _ _) in *. clearbody st1.
  simpl in *. split; [done|]. split; [by destruct Hai; congruence|].
  exists before, ai, after. rewrite He. split; [|done].
  by rewrite <- !app_assoc.
Qed.

(** A first message in a fresh chat: the guard passes, both flags end
    false. *)
Lemma submission_flags_witness :
  let st := initialState (Some (mkUser "u1")) in
  let st' := handleSubmit st "hello" None None None None None sampleSubmitWorld st in
  isSubmittingUserMessage st' = false ∧ isAILoading st' = false.
Proof.
  intros st st'.
  destruct (submission_flags st "hello" None None None None None sampleSubmitWorld st)
    as (_ & Haccepted).
  destruct (Haccepted eq_refl eq_refl) as (Hs & Ha & _).
  by split.
Defined.

(** C6, as stated, fails twice over.  While an AI call is in flight (the
    flag is up), an invocation of [handleSubmit] completes with [isAILoading]
    still true; and an invocation that passes the guard but cannot save the
    user's message completes without ever having raised [isAILoading]. *)
Lemma submit_flags_not_always_set_and_cleared :
  (let st := setIsAILoading true (initialState (Some (mkUser "u1"))) in
   isAILoading (handleSubmit st "hello" None None None None None sampleSubmitWorld st)
   = true)
  ∧ (let st := sampleActive in
     let w := mkSubmitWorld (Some (mkUser "u1")) (Failed "unused") (Failed "unused")
                (Failed "unused") (Failed "row-level security") 100%Z sampleAIWorld in
     effects (handleSubmit st "hello" None None None None None w st)
     = [SetIsSubmittingUserMessage true; AuthGetUser;
        InsertChatMessage "s1" role_user "hello";
        SetIsSubmittingUserMessage false]).
Proof. by vm_compute. Qed.

(** ** Pagination of the message buffer *)

Lemma StronglySorted_reverse {A} (R : relation A) (l : list A) :
  StronglySorted R l → StronglySorted (flip R) (reverse l).
Proof.
  induction 1 as [|x l Hl IH Hx]; [constructor|].
  rewrite reverse_cons. apply StronglySorted_app_2.
  - intros x1 x2 Hx1 Hx2. apply list_elem_of_singleton in Hx2 as ->.
    rewrite elem_of_reverse in Hx1. rewrite Forall_forall in Hx.
    unfold flip. by apply Hx.
  - exact IH.
  - repeat constructor.
Qed.

Lemma formatMessages_ids clock rows :
  m_id <$> formatMessages clock rows = reverse (r_id <$> rows).
Proof.
  unfold formatMessages. rewrite fmap_reverse, fmap_imap. f_equal.
  rewrite <- (imap_const r_id). by apply imap_ext.
Qed.

Lemma formatMessages_timestamps clock rows :
  Forall (λ r, is_Some (r_timestamp r)) rows →
  m_timestamp <$> formatMessages clock rows = reverse (rowTime <$> rows).
Proof.
  intros Hrows. unfold formatMessages. rewrite fmap_reverse, fmap_imap. f_equal.
  rewrite <- (imap_const rowTime). apply imap_ext. intros i r Hi. simpl.
  rewrite Forall_forall in Hrows.
  destruct (Hrows r) as [t Ht]; [by eapply list_elem_of_lookup_2|].
  unfold rowTime. by rewrite Ht.
Qed.

Lemma formatMessages_from_rows clock rows msg :
  Forall (λ r, is_Some (r_timestamp r)) rows →
  msg ∈ formatMessages clock rows →
  ∃ r, r ∈ rows ∧ m_id msg = r_id r ∧ m_timestamp msg = rowTime r.
Proof.
  intros Hrows Hmsg. unfold formatMessages in Hmsg.
  rewrite elem_of_reverse in Hmsg.
  apply elem_of_lookup_imap in Hmsg as (i & r & -> & Hi).
  assert (Hr : r ∈ rows) by by eapply list_elem_of_lookup_2.
  exists r. repeat split; [done|]. simpl.
  rewrite Forall_forall in Hrows. destruct (Hrows r Hr) as [t Ht].
  unfold rowTime. by rewrite Ht.
Qed.

Section pagination.

Variable table : list MessageRow.

(** [id] is the primary key of the table, and the [timestamp] column is
    filled in every row. *)
Hypothesis primary_key : NoDup (r_id <$> table).
Hypothesis timestamps_stored : Forall (λ r, is_Some (r_timestamp r)) table.

Lemma table_key r1 r2 :
  r1 ∈ table → r2 ∈ table → r_id r1 = r_id r2 → r1 = r2.
Proof.
  intros H1 H2 Heq.
  apply list_elem_of_lookup in H1 as [i Hi], H2 as [j Hj].
  assert (i = j) as ->; [|congruence].
  eapply NoDup_lookup; [exact primary_key| |];
    rewrite list_lookup_fmap; [by rewrite Hi | by rewrite Hj, Heq].
Qed.

Lemma page_stored sessionId olderThan rows :
  pageOf table sessionId olderThan rows →
  Forall (λ r, is_Some (r_timestamp r)) rows.
Proof.
  intros (_ & Hrows & _). rewrite Forall_forall in *.
  intros r Hr. apply timestamps_stored. by apply Hrows.
Qed.

Lemma page_chronological sessionId olderThan rows clock :
  pageOf table sessionId olderThan rows →
  chronological table (formatMessages clock rows).
Proof.
  intros Hpage. pose proof (page_stored _ _ _ Hpage) as Hstored.
  destruct Hpage as (Hnodup & Hrows & Hsorted).
  rewrite Forall_forall in Hrows. split; [|split].
  - rewrite formatMessages_timestamps by done.
    apply (StronglySorted_reverse (flip Z.le)).
    apply (StronglySorted_fmap rowTime newerFirst); [done|].
    apply Sorted_StronglySorted; [|done].
    intros a b c. unfold newerFirst. lia.
  - rewrite formatMessages_ids, reverse_Permutation.
    apply NoDup_fmap_2_strong; [|done].
    intros r1 r2 H1 H2. apply table_key; by apply Hrows.
  - intros msg Hmsg.
    destruct (formatMessages_from_rows clock rows msg Hstored Hmsg)
      as (r & Hr & Hid & Htime).
    exists r. split; [by apply Hrows | done].
Qed.

Lemma older_page_chronological sessionId oldest rest rows clock :
  chronological table (oldest :: rest) →
  pageOf table sessionId (Some (m_timestamp oldest)) rows →
  chronological table (formatMessages clock rows ++ oldest :: rest).
Proof.
  intros (Hsorted & Hnodup & Htable) Hpage.
  pose proof (page_stored _ _ _ Hpage) as Hstored.
  pose proof (page_chronological _ _ _ clock Hpage)
    as (Hsorted' & Hnodup' & Htable').
  destruct Hpage as (_ & Hrows & _). rewrite Forall_forall in Hrows.
  assert (Holder : ∀ msg, msg ∈ formatMessages clock rows →
                          (m_timestamp msg < m_timestamp oldest)%Z).
  { intros msg Hmsg.
    destruct (formatMessages_from_rows clock rows msg Hstored Hmsg)
      as (r & Hr & _ & ->).
    by apply Hrows. }
  assert (Hnewer : ∀ msg, msg ∈ oldest :: rest →
                          (m_timestamp oldest ≤ m_timestamp msg)%Z).
  { intros msg Hmsg. rewrite fmap_cons in Hsorted.
    apply StronglySorted_inv in Hsorted as [_ Hall].
    apply elem_of_cons in Hmsg as [->|Hmsg]; [lia|].
    rewrite Forall_forall in Hall. apply Hall. by apply list_elem_of_fmap_2. }
  split; [|split].
  - rewrite fmap_app. apply StronglySorted_app_2; [|done|done].
    intros t1 t2 Ht1 Ht2.
    apply list_elem_of_fmap in Ht1 as (m1 & -> & Hm1).
    apply list_elem_of_fmap in Ht2 as (m2 & -> & Hm2).
    specialize (Holder m1 Hm1). specialize (Hnewer m2 Hm2). lia.
  - rewrite fmap_app. apply NoDup_app. split; [done|]. split; [|done].
    intros i Hi1 Hi2.
    apply list_elem_of_fmap in Hi1 as (m1 & -> & Hm1).
    apply list_elem_of_fmap in Hi2 as (m2 & Hid & Hm2).
    destruct (Htable' m1 Hm1) as (r1 & Hr1 & Hid1 & Ht1).
    destruct (Htable m2 Hm2) as (r2 & Hr2 & Hid2 & Ht2).
    assert (r1 = r2) as -> by (apply table_key; congruence).
    specialize (Holder m1 Hm1). specialize (Hnewer m2 Hm2). lia.
  - intros msg Hmsg. apply elem_of_app in Hmsg as [Hmsg|Hmsg]; auto.
Qed.

Lemma paginated_chronological sessionId st :
  paginated table sessionId st → chronological table (chatMessages st).
Proof.
  assert (Hempty : chronological table []).
  { split; [constructor|]. split; [constructor|]. by intros msg ?%elem_of_nil. }
  induction 1 as [closure u resp clock st Hu Hresp
                 |st resp clock Hst IH Hactive Hresp].
  - unfold loadSessionMessages. rewrite Hu.
    destruct resp as [rows|message]; simpl; [|done].
    by eapply page_chronological.
  - unfold handleLoadOlderChatMessages.
    destruct (strOrUndefined (activeChatSessionId st)); [|done].
    destruct (user st); [|done].
    destruct (chatMessages st) as [|oldest rest] eqn:Hbuffer; [by rewrite Hbuffer|].
    destruct resp as [rows|message]; simpl; [|by rewrite Hbuffer].
    rewrite Hbuffer. by eapply older_page_chronological.
Qed.

End pagination.

(** C1. For every session, the message buffer produced by
    [loadSessionMessages] followed by any number of
    [handleLoadOlderChatMessages] calls is in non-decreasing timestamp order
    and holds no message id twice, given that every fetch returns rows of that
    session's table (where [id] is the key and every row has its timestamp)
    ordered by timestamp descending, and that the "older" fetch returns only
    rows strictly older than the oldest loaded timestamp. *)
Theorem paginated_buffer_ordered_unique table sessionId st :
  NoDup (r_id <$> table) →
  Forall (λ r, is_Some (r_timestamp r)) table →
  paginated table sessionId st →
  Sorted Z.le (m_timestamp <$> chatMessages st)
  ∧ NoDup (m_id <$> chatMessages st).
Proof.
  intros Hkey Hstored Hst.
  destruct (paginated_chronological table Hkey Hstored sessionId st Hst)
    as (Hsorted & Hnodup & _).
  split; [by apply StronglySorted_Sorted | done].
Qed.

(** The remote store's answer to the query is a page. *)
Lemma StronglySorted_take {A} (R : relation A) (n : nat) (l : list A) :
  StronglySorted R l → StronglySorted R (take n l).
Proof.
  intros Hl. rewrite <- (take_drop n l) in Hl.
  by apply StronglySorted_app_1_l in Hl.
Qed.

Lemma selectMessages_page table sessionId olderThan :
  NoDup table →
  pageOf table sessionId olderThan (selectMessages table sessionId olderThan).
Proof.
  intros Hnodup. unfold selectMessages.
  set (keep := λ r : MessageRow, _).
  assert (Hperm : merge_sort newerFirst (List.filter keep table)
                  ≡ₚ List.filter keep table) by apply merge_sort_Permutation.
  split; [|split].
  - eapply sublist_NoDup; [|apply sublist_take].
    rewrite Hperm. by apply NoDup_ListNoDup, List.NoDup_filter, NoDup_ListNoDup.
  - apply Forall_forall. intros r Hr.
    apply subseteq_take in Hr.
    rewrite Hperm in Hr. apply list_elem_of_In, filter_In in Hr as [Hin Hkeep].
    apply list_elem_of_In in Hin. subst keep. simpl in Hkeep.
    apply andb_true_iff in Hkeep as [Hsession Holder].
    apply String.eqb_eq in Hsession.
    split; [done|]. split; [done|].
    destruct olderThan; [lia | done].
  - apply StronglySorted_Sorted, StronglySorted_take.
    apply StronglySorted_merge_sort.
    + intros a b c. unfold newerFirst. lia.
    + intros a b. unfold newerFirst. lia.
Qed.

(** A session of 25 messages: the first page holds the 20 most recent, the
    second page the 5 before them, and the buffer is ordered and free of
    duplicates. *)
Lemma paginated_buffer_ordered_unique_witness :
  length (chatMessages (sampleSecondPage 25)) = 25
  ∧ Sorted Z.le (m_timestamp <$> chatMessages (sampleSecondPage 25))
  ∧ NoDup (m_id <$> chatMessages (sampleSecondPage 25)).
Proof.
  assert (Hkey : NoDup (r_id <$> sampleTable 25)).
  { apply (bool_decide_unpack _). by vm_compute. }
  split; [by vm_compute|].
  apply (paginated_buffer_ordered_unique (sampleTable 25) "s1").
  - exact Hkey.
  - apply (bool_decide_unpack _). by vm_compute.
  - apply paginated_older.
    + apply (paginated_load _ _ _ (mkUser "u1")); [done|].
      apply selectMessages_page. by eapply NoDup_fmap_1.
    + done.
    + apply selectMessages_page. by eapply NoDup_fmap_1.
Defined.

(** ** Audio job poller *)

Section poller.

Import NoteEditor.



















End poller.



(** ** Worked instances *)

(** The AI service reports an error for a new message: one error message
    is appended behind the two messages already there. *)
Lemma failed_new_message_appends_one_error_witness :
  ∃ errorMessage,
    chatMessages
      (_getAIResponse sampleChat "and then?" (Some (mkUser "u1")) "s1" [] [] None
         None None sampleFailingAIWorld sampleChat)
    = [sampleQuestion; sampleAnswer; errorMessage]
    ∧ m_role errorMessage = role_assistant
    ∧ m_isError errorMessage = Some true
    ∧ m_originalUserMessageContent errorMessage = Some "and then?".
Proof.
  apply (failed_new_message_appends_one_error sampleChat "and then?" (mkUser "u1")
           "s1" [] [] None None None sampleFailingAIWorld sampleChat).
  - discriminate.
  - reflexivity.
  - exact I.
Defined.

(** Regenerating the answer of the sample chat, with an AI that fails and
    with one that succeeds: only the answer changes. *)
Lemma regenerate_changes_only_target_witness :
  Forall2 (onlyRegenerated "m2") [sampleQuestion; sampleAnswer]
    (chatMessages
       (handleRegenerateResponse sampleChat "hello" 150 sampleFailingAIWorld sampleChat))
  ∧ Forall2 (onlyRegenerated "m2") [sampleQuestion; sampleAnswer]
      (chatMessages
         (handleRetryFailedMessage sampleChat "hello" "m2" 150 sampleAIWorld sampleChat)).
Proof.
  destruct regenerate_changes_only_target as [Hregenerate Hretry]. split.
  - apply (Hregenerate sampleChat "hello" 150%Z sampleFailingAIWorld sampleChat sampleAnswer).
    + reflexivity.
    + discriminate.
  - apply (Hretry sampleChat "hello" "m2" 150%Z sampleAIWorld sampleChat).
    discriminate.
Defined.

(** The fetch for the sample session fails while the buffer holds two
    messages: the buffer is emptied. *)
Lemma failed_session_load_clears_messages_witness :
  chatMessages sampleChat = [sampleQuestion; sampleAnswer]
  ∧ chatMessages
      (loadSessionMessages sampleChat "s1" (Failed "network") (λ _, 0%Z) sampleChat)
    = [].
Proof.
  split; [reflexivity|].
  apply (failed_session_load_clears_messages sampleChat (mkUser "u1")).
  reflexivity.
Defined.

(** The sample chat is the only session and it is active: deleting it
    clears the selection and the buffer. *)
Lemma delete_only_active_session_witness :
  let st' := deleteChatSession sampleChat "s1" None (Ok []) sampleChat in
  activeChatSessionId st' = None ∧ chatMessages st' = [] ∧ hasMoreMessages st' = false.
Proof.
  apply (delete_only_active_session sampleChat (mkUser "u1")
           (mkChatSession "s1" "New Chat" 99 99 101 []) (Ok []) sampleChat);
    reflexivity.
Defined.

(** The first message of a first conversation: a session is created, and
    the buffer holds the user's message and the assistant's answer, in that
    order. *)
Example first_message_of_first_chat :
  let st := initialState (Some (mkUser "u1")) in
  let st' := handleSubmit st "  hello " None None None None None sampleSubmitWorld st in
  activeChatSessionId st' = Some "s1"
  ∧ (m_role <$> chatMessages st') = [role_user; role_assistant]
  ∧ (m_timestamp <$> chatMessages st') = [100%Z; 101%Z]
  ∧ (s_id <$> chatSessions st') = ["s1"].
Proof. by vm_compute. Qed.

Example truncated_short : truncated 5 "note" = "note".
Proof. reflexivity. Qed.

Example truncated_exact : truncated 5 "notes" = "notes".
Proof. reflexivity. Qed.

Example truncated_long : truncated 5 "notebook" = "noteb...".
Proof. reflexivity. Qed.

Example context_of_one_note :
  contextText None (Some ["n1"]) None
    (Some [mkNote "n1" "Cells" "science" (Some "Mitochondria") None (Some ["bio"; "exam"])])
  = "NOTES:" ++ nl ++ "Title: Cells" ++ nl ++ "Category: science" ++ nl
    ++ "Content: Mitochondria" ++ nl ++ "Tags: bio, exam" ++ nl ++ nl.
Proof. reflexivity. Qed.

Example trim_spaces : trim "  hello " = "hello".
Proof. reflexivity. Qed.

Example split_data_url : splitCommaSecond "data:image/png;base64,iVBOR" = Some "iVBOR".
Proof. reflexivity. Qed.

Example sessions_sorted_most_recent_first :
  s_id <$> stableSort moreRecent
             [mkChatSession "a" "" 0 0 5 []; mkChatSession "b" "" 0 0 9 [];
              mkChatSession "c" "" 0 0 5 []]
  = ["b"; "a"; "c"].
Proof. reflexivity. Qed.

(** * Further properties *)

(** ** Strings of the note editor *)

Lemma chars_append (a b : string) : chars (a ++ b) = (chars a ++ chars b)%list.
Proof.
  induction a as [|c a IH]; [done|].
  rewrite append_cons. unfold chars in *. simpl. by rewrite IH.
Qed.

Lemma chars_length (s : string) : length (chars s) = String.length s.
Proof. induction s as [|c s IH]; [done|]. unfold chars in *. simpl. by rewrite IH. Qed.

Lemma escapeChar_no_markup (c : ascii) :
  Forall (λ c', ¬ isMarkupChar c') (chars (escapeChar c)).
Proof.
  unfold escapeChar.
  destruct (Ascii.eqb_spec c "&"); [|destruct (Ascii.eqb_spec c "<");
    [|destruct (Ascii.eqb_spec c ">"); [|destruct (Ascii.eqb_spec c dquote);
    [|destruct (Ascii.eqb_spec c "'")]]]];
    try (repeat constructor; intros [H|[H|[H|H]]]; discriminate H).
  repeat constructor. intros [H|[H|[H|H]]]; done.
Qed.

(** [escapeHtml] leaves no character that opens or closes markup or an
    attribute value: its output can be placed inside an element or a quoted
    attribute as text. *)
Theorem escapeHtml_no_markup (text : string) :
  Forall (λ c, ¬ isMarkupChar c) (chars (escapeHtml text)).
Proof.
  induction text as [|c text IH]; [constructor|].
  simpl. rewrite chars_append. apply Forall_app. split; [|done].
  apply escapeChar_no_markup.
Qed.

Lemma escapeChar_head (c : ascii) :
  ∃ tail, escapeChar c = String (if bool_decide (c = "<"%char ∨ c = ">"%char
                                    ∨ c = dquote ∨ c = "'"%char)
                                 then "&"%char else c) tail.
Proof.
  unfold escapeChar.
  destruct (Ascii.eqb_spec c "&") as [->|?]; [by eexists|].
  destruct (Ascii.eqb_spec c "<") as [->|?]; [by eexists|].
  destruct (Ascii.eqb_spec c ">") as [->|?]; [by eexists|].
  destruct (Ascii.eqb_spec c dquote) as [->|?]; [by eexists|].
  destruct (Ascii.eqb_spec c "'") as [->|?]; [by eexists|].
  rewrite bool_decide_eq_false_2 by (intros [?|[?|[?|?]]]; done).
  by eexists.
Qed.

(** Two characters whose entities start the same two texts are the same
    character, and the rests are the same. *)
Lemma escapeChar_prefix_free (c1 c2 : ascii) (s1 s2 : string) :
  escapeChar c1 ++ s1 = escapeChar c2 ++ s2 → c1 = c2 ∧ s1 = s2.
Proof.
  unfold escapeChar.
  destruct (Ascii.eqb_spec c1 "&") as [->|?];
    [|destruct (Ascii.eqb_spec c1 "<") as [->|?];
    [|destruct (Ascii.eqb_spec c1 ">") as [->|?];
    [|destruct (Ascii.eqb_spec c1 dquote) as [->|?];
    [|destruct (Ascii.eqb_spec c1 "'") as [->|?]]]]];
  (destruct (Ascii.eqb_spec c2 "&") as [->|?];
    [|destruct (Ascii.eqb_spec c2 "<") as [->|?];
    [|destruct (Ascii.eqb_spec c2 ">") as [->|?];
    [|destruct (Ascii.eqb_spec c2 dquote) as [->|?];
    [|destruct (Ascii.eqb_spec c2 "'") as [->|?]]]]]);
  rewrite ?append_cons; simpl; intros Heq; inversion Heq; subst; try done.
Qed.

(** [escapeHtml] loses nothing: two texts with the same escaped form are the
    same text. *)
Theorem escapeHtml_injective (a b : string) :
  escapeHtml a = escapeHtml b → a = b.
Proof.
  revert b. induction a as [|c a IH]; intros [|d b] Heq; simpl in Heq.
  - done.
  - destruct (escapeChar_head d) as [tail Hd]. rewrite Hd, append_cons in Heq. done.
  - destruct (escapeChar_head c) as [tail Hc]. rewrite Hc, append_cons in Heq. done.
  - apply escapeChar_prefix_free in Heq as [-> Heq]. f_equal. by apply IH.
Qed.

(** The name [handleAudioFileSelect] stores an audio file under keeps the
    length of the original name and holds only letters, digits, dots,
    underscores and hyphens, so no path separator and no white space; a name
    that is already safe is kept as it is. *)
Theorem safeFileName_safe (name : string) :
  String.length (safeFileName name) = String.length name
  ∧ Forall (λ c, isSafeChar c = true) (chars (safeFileName name))
  ∧ Forall (λ c, c ≠ "/"%char ∧ c ≠ " "%char) (chars (safeFileName name))
  ∧ (Forall (λ c, isSafeChar c = true) (chars name) → safeFileName name = name)
  ∧ safeFileName (safeFileName name) = safeFileName name.
Proof.
  assert (Hsafe : Forall (λ c, isSafeChar c = true) (chars (safeFileName name))).
  { induction name as [|c name IH]; [constructor|].
    unfold chars in *. simpl. constructor; [|done].
    by destruct (isSafeChar c) eqn:Hc. }
  assert (Hfixed : ∀ n, Forall (λ c, isSafeChar c = true) (chars n) → safeFileName n = n).
  { induction n as [|c n IH]; [done|].
    unfold chars in *. simpl. intros [Hc Hn]%Forall_cons.
    by rewrite Hc, IH. }
  assert (Hlength : String.length (safeFileName name) = String.length name).
  { clear Hsafe. induction name as [|c name IH]; [done|]. simpl. by rewrite IH. }
  split; [done|]. split; [done|]. split; [|split; [apply Hfixed | by apply Hfixed]].
  eapply Forall_impl; [exact Hsafe|]. intros c Hc. split; intros ->; done.
Qed.

(** ** The tags field of the note editor *)

Lemma splitOn_nonempty sep s : splitOn sep s ≠ [].
Proof.
  destruct s as [|c s]; [done|]. simpl.
  destruct (Ascii.eqb c sep); [done|]. by destruct (splitOn sep s).
Qed.

Lemma splitOn_no_separator sep s :
  Forall (λ c, c ≠ sep) (chars s) → splitOn sep s = [s].
Proof.
  induction s as [|c s IH]; [done|].
  unfold chars in *. simpl. intros [Hc Hs]%Forall_cons.
  rewrite (proj2 (Ascii.eqb_neq _ _) Hc), IH; done.
Qed.

Lemma splitOn_piece sep piece rest :
  Forall (λ c, c ≠ sep) (chars piece) →
  splitOn sep (piece ++ String sep rest) = piece :: splitOn sep rest.
Proof.
  induction piece as [|c piece IH].
  - intros _. simpl. by rewrite Ascii.eqb_refl.
  - rewrite append_cons. unfold chars in *. simpl. intros [Hc Hs]%Forall_cons.
    rewrite (proj2 (Ascii.eqb_neq _ _) Hc), IH; done.
Qed.

(** No piece of a split holds the separator. *)
Lemma splitOn_pieces sep s :
  Forall (λ piece, Forall (λ c, c ≠ sep) (chars piece)) (splitOn sep s).
Proof.
  induction s as [|c s IH]; [by repeat constructor|]. simpl.
  destruct (Ascii.eqb_spec c sep) as [->|Hc].
  - constructor; [constructor | done].
  - destruct (splitOn sep s) as [|piece pieces]; [by repeat constructor|].
    apply Forall_cons in IH as [Hpiece Hpieces].
    constructor; [|done]. unfold chars in *. simpl. by constructor.
Qed.

Lemma trimStart_leading_space (s : string) : trimStart (String " " s) = trimStart s.
Proof. reflexivity. Qed.

Lemma trim_leading_space (s : string) : trim (String " " s) = trim s.
Proof. reflexivity. Qed.

(** The tags come back from the [tags] field as they went in: what
    [handleSave] reads from the field that the editor filled with
    [note.tags.join(', ')] is the note's list of tags, when each tag is not
    empty, holds no comma and has no white space at its ends. *)
Theorem handleSave_tags_round_trip title content category tags now :
  Forall cleanTag tags →
  saved_tags (handleSave title content category (tagsField tags) now) = tags.
Proof.
  intros Htags. simpl. unfold tagsField, join.
  induction Htags as [|tag tags (Hne & Hcomma & Htrim) Htags IH]; [done|].
  destruct tags as [|tag' tags].
  - simpl. rewrite splitOn_no_separator by done. simpl.
    rewrite Htrim. by destruct (String.eqb_spec tag "").
  - set (rest := String.concat ", " (tag' :: tags)) in *.
    change (String.concat ", " (tag :: tag' :: tags))
      with (tag ++ String "," (String " " rest)).
    assert (Hsplit : trim <$> splitOn "," (String " " rest) = trim <$> splitOn "," rest).
    { pose proof (splitOn_nonempty "," rest) as Hrest.
      cbn [splitOn]. change (Ascii.eqb " " ",") with false. cbv iota.
      destruct (splitOn "," rest) as [|piece pieces]; [done|].
      by rewrite !fmap_cons, trim_leading_space. }
    rewrite splitOn_piece by done.
    rewrite fmap_cons, Htrim, Hsplit. cbn [List.filter].
    destruct (String.eqb_spec tag "") as [?|_]; [done|].
    cbn [negb]. f_equal. exact IH.
Qed.

Lemma trimStart_chars (P : ascii → Prop) (s : string) :
  Forall P (chars s) → Forall P (chars (trimStart s)).
Proof.
  induction s as [|c s IH]; [done|]. unfold chars in *. simpl.
  intros Hs. destruct (isSpace c); [|done].
  apply IH. by apply Forall_cons in Hs as [_ ?].
Qed.

Lemma rev_chars (P : ascii → Prop) (s : string) :
  Forall P (chars s) → Forall P (chars (String.rev s)).
Proof.
  unfold String.rev.
  assert (Hgen : ∀ a b, Forall P (chars a) → Forall P (chars b) →
                        Forall P (chars (String.rev_app a b))).
  { induction a as [|c a IH]; intros b Ha Hb; [done|].
    unfold chars in *. simpl in *. apply Forall_cons in Ha as [Hc Ha].
    apply IH; [done|]. by constructor. }
  intros Hs. apply Hgen; [done | constructor].
Qed.

Lemma trim_chars (P : ascii → Prop) (s : string) :
  Forall P (chars s) → Forall P (chars (trim s)).
Proof.
  intros Hs. unfold trim.
  by apply rev_chars, trimStart_chars, rev_chars, trimStart_chars.
Qed.

(** Whatever the [tags] field holds, [handleSave] stores no empty tag and
    no tag with a comma, and at most one tag per comma-separated piece of
    the field; the stored title is never empty ("Untitled Note" stands in
    for an empty one). *)
Theorem handleSave_tags_clean title content category tags now :
  Forall (λ tag, tag ≠ "" ∧ Forall (λ c, c ≠ ","%char) (chars tag))
         (saved_tags (handleSave title content category tags now))
  ∧ (length (saved_tags (handleSave title content category tags now))
     ≤ length (splitOn "," tags))%nat
  ∧ saved_title (handleSave title content category tags now) ≠ "".
Proof.
  simpl. split; [|split].
  - apply Forall_forall. intros tag Htag.
    apply list_elem_of_In, filter_In in Htag as [Hin Htag].
    split; [by destruct (String.eqb_spec tag "")|].
    apply list_elem_of_In, list_elem_of_fmap in Hin as (piece & -> & Hpiece).
    apply trim_chars.
    pose proof (splitOn_pieces "," tags) as Hpieces.
    rewrite Forall_forall in Hpieces. by apply Hpieces.
  - etrans; [apply List.filter_length_le|]. by rewrite length_fmap.
  - by destruct (String.eqb_spec title "").
Qed.

(** ** Submitting a message *)


Lemma refreshUploadedDocument_messages docId resp st :
  chatMessages (snd (refreshUploadedDocument docId resp st)) = chatMessages st.
Proof. unfold refreshUploadedDocument. by destruct resp. Qed.


(** When the user's message cannot be saved, the AI is not called and the
    buffer of an active session stays as it was: between raising and lowering
    [isSubmittingUserMessage] the submission writes no flag and makes no AI
    call. *)
Theorem handleSubmit_unsaved_message_no_ai_call
    closure messageContent docIds noteIds imageUrl mime image w st message :
  submitRejected closure messageContent docIds noteIds imageUrl = false →
  userMessageInsert w = Failed message →
  (is_Some (strOrUndefined (activeChatSessionId closure)) →
   chatMessages (handleSubmit closure messageContent docIds noteIds imageUrl mime image w st)
   = chatMessages st)
  ∧ isAILoading (handleSubmit closure messageContent docIds noteIds imageUrl mime image w st)
    = isAILoading st
  ∧ ∃ trace,
      effects (handleSubmit closure messageContent docIds noteIds imageUrl mime image w st)
      = (effects st ++ [SetIsSubmittingUserMessage true] ++ trace
           ++ [SetIsSubmittingUserMessage false])%list
      ∧ Forall quiet trace.
Proof.
  intros Hguard Hinsert. unfold handleSubmit. rewrite Hguard.
  set (st0 := setIsSubmittingUserMessage true st).
  assert (Hbody : quietStep st0
            (trySubmit closure (trim messageContent) docIds noteIds imageUrl mime image w st0)
          ∧ (is_Some (strOrUndefined (activeChatSessionId closure)) →
             chatMessages
               (trySubmit closure (trim messageContent) docIds noteIds imageUrl mime image w st0)
             = chatMessages st0)).
  { unfold trySubmit. rewrite Hinsert.
    destruct (authUser w) as [currentUser|]; [|split; [auto with quiet | done]].
    destruct (strOrUndefined (activeChatSessionId closure)) as [sid|] eqn:Hactive.
    - set (st1 := match strOrUndefined imageUrl with Some _ => _ | None => _ end).
      assert (H1 : quietStep st0 st1 ∧ chatMessages st1 = chatMessages st0).
      { subst st1. destruct (strOrUndefined imageUrl); [|auto with quiet].
        destruct (0 <? _)%nat; [|auto with quiet].
        destruct (strOrUndefined (findImageDocId _ _ _)); [|auto with quiet].
        split; [apply quietStep_refreshUploadedDocument; auto with quiet|].
        by rewrite refreshUploadedDocument_messages. }
      destruct H1 as [H1 H1']. clearbody st1. split; [auto with quiet|].
      intros _. simpl. exact H1'.
    - pose proof (quietStep_createNewChatSession closure (sessionInsert w)
                    (sessionsReload w) st0 (emit AuthGetUser st0)) as Hcreate.
      destruct (createNewChatSession _ _ _ _) as [created st1]. simpl in Hcreate.
      split; [|by intros [? ?]].
      destruct (strOrUndefined created); [|auto with quiet].
      set (st2 := match strOrUndefined imageUrl with Some _ => _ | None => _ end).
      assert (H2 : quietStep st0 st2).
      { subst st2. destruct (strOrUndefined imageUrl); [|auto with quiet].
        destruct (0 <? _)%nat; [|auto with quiet].
        destruct (strOrUndefined (findImageDocId _ _ _)); [|auto with quiet].
        apply quietStep_refreshUploadedDocument; auto with quiet. }
      clearbody st2. auto with quiet. }
  destruct Hbody as [(trace & He & Hq & Ha & Hs) Hmessages].
  set (st1 := trySubmit _ _ _ _ _ _ _ _ _) in *. clearbody st1.
  split; [|split].
  - intros Hactive. simpl. by rewrite (Hmessages Hactive).
  - simpl. by rewrite Ha.
  - exists trace. simpl. rewrite He. simpl. split; [|done].
    by rewrite <- !app_assoc.
Qed.

Lemma trimStart_blank (s : string) : blank s → trimStart s = "".
Proof.
  induction s as [|c s IH]; [done|]. unfold blank, chars in *. simpl.
  intros [Hc Hs]%Forall_cons. rewrite Hc. by apply IH.
Qed.

(** A submission with nothing to send is dropped at the guard: a message of
    white space only (or an empty one) without attached documents, notes or
    image leaves the state exactly as it was, whatever the flags are. *)
Theorem handleSubmit_blank_is_dropped
    closure messageContent docIds noteIds imageUrl mime image w st :
  blank messageContent →
  arrOrElse docIds = [] → arrOrElse noteIds = [] → truthy imageUrl = false →
  handleSubmit closure messageContent docIds noteIds imageUrl mime image w st = st.
Proof.
  intros Hblank Hdocs Hnotes Himage. unfold handleSubmit, submitRejected.
  unfold trim. rewrite (trimStart_blank _ Hblank), Hdocs, Hnotes, Himage. done.
Qed.

(** ** The history sent to the AI *)

Lemma appendHistoricalTurn_turn closure chatHistory st msg :
  ∃ turn,
    fst (appendHistoricalTurn closure (chatHistory, st) msg)
    = (chatHistory ++ [turn])%list
    ∧ turnOf msg turn.
Proof.
  unfold appendHistoricalTurn, turnOf, turnRole.
  destruct (m_role msg); [|by eexists].
  destruct (hasAttachments msg); [|by eexists].
  unfold buildRichContext. cbn beta iota zeta.
  match goal with |- context [if ?b then _ else _] => destruct b end; by eexists.
Qed.

Lemma fold_appendHistoricalTurn closure msgs chatHistory st :
  ∃ turns,
    fst (fold_left (appendHistoricalTurn closure) msgs (chatHistory, st))
    = (chatHistory ++ turns)%list
    ∧ Forall2 turnOf msgs turns.
Proof.
  revert chatHistory st. induction msgs as [|msg msgs IH]; intros chatHistory st.
  - exists []. by rewrite app_nil_r.
  - cbn [fold_left].
    destruct (appendHistoricalTurn_turn closure chatHistory st msg) as (turn & Hturn & Hof).
    destruct (appendHistoricalTurn closure (chatHistory, st) msg) as [chatHistory' st'].
    simpl in Hturn. subst chatHistory'.
    destruct (IH (chatHistory ++ [turn])%list st') as (turns & Hturns & Hofs).
    exists (turn :: turns). rewrite Hturns, <- app_assoc. split; [done|].
    by constructor.
Qed.

(** The history sent to the AI holds one turn for every message of the
    buffer except the one being regenerated, in the order of the buffer, user
    messages as "user" turns and assistant messages as "model" turns, each
    starting with the text of its message; the last turn is the current user
    turn, which starts with the user's text when there is one. *)
Theorem buildChatHistory_turns closure userMessageContent target image mime st :
  ∃ turns current,
    fst (buildChatHistory closure userMessageContent target image mime st)
    = (turns ++ [current])%list
    ∧ Forall2 turnOf
        (List.filter (λ msg, negb (isTarget target msg)) (chatMessages closure))
        turns
    ∧ t_role current = "user"
    ∧ (userMessageContent ≠ "" →
       head (t_parts current) = Some (TextPart userMessageContent)).
Proof.
  unfold buildChatHistory.
  destruct (fold_appendHistoricalTurn closure
              (List.filter (λ msg, negb (isTarget target msg)) (chatMessages closure))
              [] st) as (turns & Hturns & Hof).
  destruct (fold_left _ _ _) as [chatHistory st1]. simpl in Hturns. subst chatHistory.
  eexists turns, _. split; [reflexivity|]. split; [done|]. split; [done|].
  intros Hne. simpl. destruct (String.eqb_spec userMessageContent ""); [done|]. simpl.
  by destruct (strOrUndefined image), (strOrUndefined mime).
Qed.

(** ** The session list after an AI call *)

Lemma insertSorted_Permutation {A} (before : A → A → bool) x xs :
  insertSorted before x xs ≡ₚ x :: xs.
Proof.
  induction xs as [|y ys IH]; [done|]. simpl.
  destruct (before y x); [|done]. rewrite IH. apply Permutation_swap.
Qed.

Lemma stableSort_Permutation {A} (before : A → A → bool) xs :
  stableSort before xs ≡ₚ xs.
Proof.
  induction xs as [|x xs IH]; [done|].
  unfold stableSort in *. simpl. by rewrite insertSorted_Permutation, IH.
Qed.

Lemma insertSorted_recentFirst x xs :
  StronglySorted recentFirst xs →
  StronglySorted recentFirst (insertSorted moreRecent x xs).
Proof.
  induction 1 as [|y ys Hys IH Hy]; [by repeat constructor|]. simpl.
  unfold moreRecent at 1. destruct (Z.ltb_spec (s_last_message_at x) (s_last_message_at y)).
  - constructor; [done|].
    rewrite insertSorted_Permutation. constructor; [unfold recentFirst; lia | done].
  - constructor; [by constructor|]. constructor; [done|].
    eapply Forall_impl; [exact Hy|]. unfold recentFirst. intros z. simpl. lia.
Qed.

Lemma stableSort_recentFirst xs : StronglySorted recentFirst (stableSort moreRecent xs).
Proof.
  induction xs as [|x xs IH]; [constructor|].
  unfold stableSort in *. simpl. by apply insertSorted_recentFirst.
Qed.

(** What the [try] block of a successful call writes to the session list. *)
Lemma getAIResponse_success_sessions
    closure userMessageContent currentUser sessionId attachedDocumentIds
    attachedNoteIds target image mime w st :
  sessionId ≠ "" → aiSucceeded target w →
  chatSessions
    (_getAIResponse closure userMessageContent (Some currentUser) sessionId
       attachedDocumentIds attachedNoteIds target image mime w st)
  = stableSort moreRecent
      (touchSession sessionId (now w) attachedDocumentIds <$> chatSessions st).
Proof.
  intros Hsession [(response & Hinvoked & Hresponse) Hsaved].
  unfold _getAIResponse, strOrUndefined at 1. simpl.
  destruct (String.eqb_spec sessionId ""); [done|]. simpl.
  unfold tryGetAIResponse.
  pose proof (buildChatHistory_hooks closure userMessageContent target
                image mime (setIsAILoading true st)) as Hhooks.
  destruct (buildChatHistory _ _ _ _ _ _) as [chatHistory st1]. simpl in Hhooks.
  destruct Hhooks as (_ & Hsessions & _).
  rewrite Hinvoked.
  assert (Htruthy : strOrUndefined (Some response) = Some response).
  { unfold strOrUndefined. simpl. by destruct (String.eqb_spec response ""). }
  rewrite Htruthy.
  destruct (strOrUndefined target) as [id|].
  - rewrite Hsaved. simpl. by rewrite Hsessions.
  - destruct Hsaved as [row ->]. simpl. by rewrite Hsessions.
Qed.

(** After a successful AI call the session list holds the same sessions as
    before, listed by [last_message_at] with the most recent first; the
    session of the call carries the clock reading as [last_message_at] and
    the attached document ids as [document_ids], and every other session is
    as it was. *)
Theorem successful_call_resorts_sessions
    closure userMessageContent currentUser sessionId attachedDocumentIds
    attachedNoteIds target image mime w st :
  sessionId ≠ "" → aiSucceeded target w →
  let st' :=
    _getAIResponse closure userMessageContent (Some currentUser) sessionId
      attachedDocumentIds attachedNoteIds target image mime w st in
  s_id <$> chatSessions st' ≡ₚ s_id <$> chatSessions st
  ∧ StronglySorted recentFirst (chatSessions st')
  ∧ Forall (λ s, if String.eqb (s_id s) sessionId
                 then s_last_message_at s = now w
                      ∧ s_document_ids s = attachedDocumentIds
                 else s ∈ chatSessions st) (chatSessions st').
Proof.
  intros Hsession Hsucceeded st'. subst st'.
  rewrite (getAIResponse_success_sessions _ _ _ _ _ _ _ _ _ _ _ Hsession Hsucceeded).
  split; [|split].
  - rewrite stableSort_Permutation, <- list_fmap_compose.
    erewrite list_fmap_ext; [reflexivity|]. intros i s _. simpl.
    unfold touchSession. by destruct (String.eqb (s_id s) sessionId).
  - apply stableSort_recentFirst.
  - rewrite stableSort_Permutation. apply Forall_fmap, Forall_forall.
    intros s Hs. simpl. unfold touchSession.
    destruct (String.eqb (s_id s) sessionId) eqn:Hid; simpl; by rewrite Hid.
Qed.

(** A call of [_getAIResponse] leaves the selection of the session alone. *)
Lemma getAIResponse_active
    closure userMessageContent currentUser sessionId attachedDocumentIds
    attachedNoteIds target image mime w st :
  activeChatSessionId
    (_getAIResponse closure userMessageContent currentUser sessionId
       attachedDocumentIds attachedNoteIds target image mime w st)
  = activeChatSessionId st.
Proof.
  unfold _getAIResponse.
  destruct currentUser as [currentUser|]; [|done].
  destruct (strOrUndefined (Some sessionId)) as [sid|]; [|done].
  unfold tryGetAIResponse.
  pose proof (buildChatHistory_hooks closure userMessageContent target
                image mime (setIsAILoading true st)) as Hhooks.
  destruct (buildChatHistory _ _ _ _ _ _) as [chatHistory st1]. simpl in Hhooks.
  destruct Hhooks as (_ & _ & Hactive & _).
  unfold catchGetAIResponse.
  destruct (invoked w) as [message|[message|] [response|]];
    try (destruct (strOrUndefined target); exact Hactive).
  destruct (strOrUndefined response) as [aiResponseContent|];
    [|destruct (strOrUndefined target); exact Hactive].
  destruct (strOrUndefined target) as [id|].
  - destruct (updateDbError w); exact Hactive.
  - destruct (insertResult w); exact Hactive.
Qed.

(** After a successful exchange in the active session, the effect that
    follows the session list selects the documents that were attached to the
    exchange: the document selection of the chat follows its last message. *)
Theorem selection_follows_last_exchange
    closure userMessageContent currentUser sessionId attachedDocumentIds
    attachedNoteIds target image mime w st :
  sessionId ≠ "" → aiSucceeded target w →
  activeChatSessionId st = Some sessionId →
  sessionId ∈ s_id <$> chatSessions st →
  selectedDocumentIds
    (selectedDocumentsEffect
       (_getAIResponse closure userMessageContent (Some currentUser) sessionId
          attachedDocumentIds attachedNoteIds target image mime w st))
  = attachedDocumentIds.
Proof.
  intros Hsession Hsucceeded Hactive Hlisted.
  unfold selectedDocumentsEffect.
  rewrite getAIResponse_active, Hactive.
  rewrite (getAIResponse_success_sessions _ _ _ _ _ _ _ _ _ _ _ Hsession Hsucceeded).
  set (touched := touchSession sessionId (now w) attachedDocumentIds <$> chatSessions st).
  set (sorted := stableSort moreRecent touched).
  assert (Hperm : sorted ≡ₚ touched) by apply stableSort_Permutation.
  assert (Htouched : ∀ s, s ∈ sorted → s_id s = sessionId →
                          s_document_ids s = attachedDocumentIds).
  { intros s Hs Hid. rewrite Hperm in Hs.
    apply list_elem_of_fmap in Hs as (s0 & -> & _). revert Hid.
    unfold touchSession.
    destruct (String.eqb_spec (s_id s0) sessionId) as [Heq|Hne]; [done|].
    intros Hid. done. }
  assert (Hexists : ∃ s, s ∈ sorted ∧ s_id s = sessionId).
  { apply list_elem_of_fmap in Hlisted as (s0 & Hid & Hs0).
    exists (touchSession sessionId (now w) attachedDocumentIds s0). split.
    - rewrite Hperm. by apply list_elem_of_fmap_2.
    - unfold touchSession. by destruct (String.eqb (s_id s0) sessionId). }
  assert (Htruthy : strOrUndefined (Some sessionId) = Some sessionId).
  { unfold strOrUndefined. simpl. by destruct (String.eqb_spec sessionId ""). }
  rewrite Htruthy.
  destruct Hexists as (s & Hs & Hid).
  assert (Hlength : (0 <? length sorted)%nat = true).
  { apply Nat.ltb_lt. destruct sorted; [by apply elem_of_nil in Hs | simpl; lia]. }
  rewrite Hlength.
  destruct (List.find _ sorted) as [currentSession|] eqn:Hfind.
  - apply List.find_some in Hfind as [Hin Hmatch].
    apply list_elem_of_In in Hin. apply String.eqb_eq in Hmatch.
    simpl. by apply Htouched.
  - apply list_elem_of_In in Hs.
    pose proof (List.find_none _ _ Hfind s Hs) as Hnone. simpl in Hnone.
    apply String.eqb_neq in Hnone. done.
Qed.

(** ** Renaming a session *)

(** Renaming changes titles only, and only of the session named: the list
    keeps its length and order (so it stays sorted by recency), every
    session keeps its id, dates and document ids, a session with another id
    is untouched, and the renamed one carries the new title.  A refused
    update, or nobody signed in, changes nothing. *)
Theorem renameChatSession_only_title closure sessionId newTitle updateError st :
  let st' := renameChatSession closure sessionId newTitle updateError st in
  Forall2 (λ before after,
             s_id after = s_id before
             ∧ s_created_at after = s_created_at before
             ∧ s_updated_at after = s_updated_at before
             ∧ s_last_message_at after = s_last_message_at before
             ∧ s_document_ids after = s_document_ids before
             ∧ (s_id before ≠ sessionId → after = before)
             ∧ (s_id before = sessionId → is_Some (user closure) → updateError = None →
                s_title after = newTitle))
          (chatSessions st) (chatSessions st')
  ∧ (StronglySorted recentFirst (chatSessions st) →
     StronglySorted recentFirst (chatSessions st'))
  ∧ (is_Some updateError ∨ user closure = None → st' = st).
Proof.
  intros st'. subst st'. unfold renameChatSession.
  assert (Hsame : Forall2 (λ before after,
             s_id after = s_id before
             ∧ s_created_at after = s_created_at before
             ∧ s_updated_at after = s_updated_at before
             ∧ s_last_message_at after = s_last_message_at before
             ∧ s_document_ids after = s_document_ids before
             ∧ (s_id before ≠ sessionId → after = before)
             ∧ (s_id before = sessionId → False → updateError = None →
                s_title after = newTitle))
          (chatSessions st) (chatSessions st)).
  { apply Forall_Forall2_diag, Forall_forall. intros s _. by repeat split. }
  destruct (user closure) as [u|].
  - destruct updateError as [message|].
    + split; [|split; [done|done]].
      eapply Forall2_impl; [exact Hsame|]. intros a b (? & ? & ? & ? & ? & ? & _).
      by repeat split.
    + simpl. split; [|split].
      * apply Forall2_fmap_r, Forall_Forall2_diag, Forall_forall. intros s _.
        unfold compose, retitled.
        destruct (String.eqb_spec (s_id s) sessionId) as [Heq|Hne]; simpl;
          by repeat split.
      * clear Hsame. intros Hsorted.
        induction Hsorted as [|s rest Hrest IH Hhead]; [constructor|].
        rewrite fmap_cons. constructor; [exact IH|].
        apply Forall_fmap. eapply Forall_impl; [exact Hhead|].
        intros b Hb. unfold recentFirst, retitled in *. simpl.
        by destruct (String.eqb (s_id s) sessionId), (String.eqb (s_id b) sessionId).
      * by intros [[? [=]]|[=]].
  - split; [|split; [done|done]].
    eapply Forall2_impl; [exact Hsame|]. intros a b (? & ? & ? & ? & ? & ? & _).
    by repeat split.
Qed.

(** ** Creating and deleting sessions *)

Lemma loadChatSessions_frame closure resp st :
  activeChatSessionId (loadChatSessions closure resp st) = activeChatSessionId st
  ∧ chatMessages (loadChatSessions closure resp st) = chatMessages st
  ∧ hasMoreMessages (loadChatSessions closure resp st) = hasMoreMessages st
  ∧ chatSessionsLoadedCount (loadChatSessions closure resp st)
    = chatSessionsLoadedCount st
  ∧ selectedDocumentIds (loadChatSessions closure resp st) = selectedDocumentIds st.
Proof.
  unfold loadChatSessions.
  destruct (user closure); [|done]. by destruct resp.
Qed.

(** [createNewChatSession] fails closed: it returns no id exactly when
    nobody is signed in or the insert did not return a row, and then the
    session list, the selection, the buffer and the paging counter are as
    they were; when it returns an id, it is the id of the inserted row, that
    session is the active one, the buffer is empty with nothing older to
    load, and the paging counter is back at 10. *)
Theorem createNewChatSession_fails_closed closure insertResp reloadResp st :
  let created := fst (createNewChatSession closure insertResp reloadResp st) in
  let st' := snd (createNewChatSession closure insertResp reloadResp st) in
  match created with
  | None =>
      (user closure = None ∨ ∀ data, insertResp ≠ Ok (Some data))
      ∧ chatSessions st' = chatSessions st
      ∧ activeChatSessionId st' = activeChatSessionId st
      ∧ chatMessages st' = chatMessages st
      ∧ hasMoreMessages st' = hasMoreMessages st
      ∧ chatSessionsLoadedCount st' = chatSessionsLoadedCount st
  | Some id =>
      (∃ u data, user closure = Some u ∧ insertResp = Ok (Some data) ∧ id = sr_id data)
      ∧ activeChatSessionId st' = Some id
      ∧ chatMessages st' = []
      ∧ hasMoreMessages st' = false
      ∧ chatSessionsLoadedCount st' = 10%nat
  end.
Proof.
  unfold createNewChatSession.
  destruct (user closure) as [u|]; [|by repeat split; [left|..]].
  destruct insertResp as [[data|]|message]; simpl.
  - split; [by exists u, data|]. repeat split.
    destruct (loadChatSessions_frame closure reloadResp
                (setChatSessionsLoadedCount (λ _, CHAT_SESSIONS_PER_PAGE)
                   (emit (InsertChatSession (u_id u) (selectedDocumentIds closure)) st)))
      as (_ & _ & _ & -> & _). done.
  - repeat split. by right.
  - repeat split. by right.
Qed.

(** A session list that is ordered most recent first starts with a session
    no other one is more recent than. *)
Lemma recentFirst_head s rest :
  StronglySorted recentFirst (s :: rest) →
  ∀ s', s' ∈ s :: rest → (s_last_message_at s' ≤ s_last_message_at s)%Z.
Proof.
  intros Hsorted s' Hs'. apply StronglySorted_inv in Hsorted as [_ Hrest].
  apply elem_of_cons in Hs' as [->|Hs']; [lia|].
  rewrite Forall_forall in Hrest. by apply Hrest.
Qed.

Lemma remaining_sessions sessionId sessions s :
  s ∈ List.filter (λ s, negb (String.eqb (s_id s) sessionId)) sessions
  ↔ s ∈ sessions ∧ s_id s ≠ sessionId.
Proof.
  rewrite list_elem_of_In, filter_In, <- list_elem_of_In.
  destruct (String.eqb_spec (s_id s) sessionId); simpl.
  - split; [by intros [_ ?] | by intros [_ ?]].
  - split; intros [? _]; by split.
Qed.

(** Deleting the active session while the local list holds other sessions
    selects, among the sessions that remain, one that no other is more recent
    than; the buffer is left for the effect on [activeChatSessionId] to
    reload. *)
Theorem deleteChatSession_selects_most_recent
    closure u sessionId reloadResp st other :
  user closure = Some u →
  activeChatSessionId closure = Some sessionId →
  (1 < length (chatSessions closure))%nat →
  other ∈ chatSessions closure → s_id other ≠ sessionId →
  let st' := deleteChatSession closure sessionId None reloadResp st in
  ∃ mostRecent,
    activeChatSessionId st' = Some (s_id mostRecent)
    ∧ mostRecent ∈ chatSessions closure
    ∧ s_id mostRecent ≠ sessionId
    ∧ (∀ s, s ∈ chatSessions closure → s_id s ≠ sessionId →
         (s_last_message_at s ≤ s_last_message_at mostRecent)%Z)
    ∧ chatMessages st' = chatMessages st.
Proof.
  intros Hu Hactive Hmany Hother Hne st'. subst st'.
  unfold deleteChatSession. rewrite Hu, Hactive.
  rewrite bool_decide_eq_true_2 by done.
  destruct (Nat.ltb_spec 1 (length (chatSessions closure))); [|lia].
  set (remaining := List.filter _ (chatSessions closure)).
  pose proof (stableSort_Permutation moreRecent remaining) as Hperm.
  pose proof (stableSort_recentFirst remaining) as Hsorted.
  assert (Hin : other ∈ remaining) by by apply remaining_sessions.
  destruct (stableSort moreRecent remaining) as [|mostRecent rest].
  { rewrite <- Hperm in Hin. by apply elem_of_nil in Hin. }
  exists mostRecent.
  assert (Hmost : mostRecent ∈ remaining) by (rewrite <- Hperm; constructor).
  apply remaining_sessions in Hmost as [Hmost Hmost'].
  split; [done|]. split; [done|]. split; [done|]. split.
  - intros s Hs Hs'. apply (recentFirst_head _ _ Hsorted).
    rewrite Hperm. by apply remaining_sessions.
  - simpl. by destruct (loadChatSessions_frame closure reloadResp
                          (setChatSessionsLoadedCount (λ _, CHAT_SESSIONS_PER_PAGE)
                             (emit (DeleteChatSessionRow sessionId (u_id u)) st)))
      as (_ & -> & _).
Qed.

(** A delete that the remote store refuses changes nothing locally, and a
    delete of a session other than the active one leaves the selection and
    the buffer alone.  The local list never loses the session by itself: it
    is whatever the reload returns, and stays as it was, deleted session
    included, when the reload fails. *)
Theorem deleteChatSession_leaves_alone closure sessionId deleteError reloadResp st :
  let st' := deleteChatSession closure sessionId deleteError reloadResp st in
  (is_Some deleteError ∨ user closure = None →
   chatSessions st' = chatSessions st
   ∧ activeChatSessionId st' = activeChatSessionId st
   ∧ chatMessages st' = chatMessages st
   ∧ chatSessionsLoadedCount st' = chatSessionsLoadedCount st)
  ∧ (activeChatSessionId closure ≠ Some sessionId →
     activeChatSessionId st' = activeChatSessionId st
     ∧ chatMessages st' = chatMessages st
     ∧ hasMoreMessages st' = hasMoreMessages st)
  ∧ (∀ message, reloadResp = Failed message → chatSessions st' = chatSessions st).
Proof.
  intros st'. subst st'. unfold deleteChatSession.
  destruct (user closure) as [u|] eqn:Hu; [|by repeat split].
  destruct deleteError as [e|].
  { split; [done|]. split; [done|]. done. }
  set (st1 := setChatSessionsLoadedCount _ _).
  destruct (loadChatSessions_frame closure reloadResp st1) as (Hid & Hbuf & Hmore & _).
  assert (Hsessions : ∀ message, reloadResp = Failed message →
            chatSessions (loadChatSessions closure reloadResp st1) = chatSessions st).
  { intros message ->. unfold loadChatSessions. by rewrite Hu. }
  set (st2 := loadChatSessions closure reloadResp st1) in *. clearbody st2.
  split; [|split].
  - intros [[? [=]]|[=]].
  - intros Hinactive. rewrite bool_decide_eq_false_2 by done. by rewrite Hid, Hbuf, Hmore.
  - intros message Hfailed. specialize (Hsessions message Hfailed).
    case_bool_decide; [|done].
    destruct (1 <? _)%nat; [|done].
    by destruct (stableSort _ _).
Qed.

(** ** The message buffer *)

Lemma StronglySorted_filter {A} (R : relation A) (f : A → bool) (l : list A) :
  StronglySorted R l → StronglySorted R (List.filter f l).
Proof.
  induction 1 as [|x l Hl IH Hx]; [constructor|]. simpl.
  destruct (f x); [|done]. constructor; [done|].
  apply Forall_forall. intros y Hy. rewrite Forall_forall in Hx. apply Hx.
  by apply list_elem_of_In, filter_In in Hy as [?%list_elem_of_In _].
Qed.

Lemma filter_fmap_comm {A B} (g : A → B) (f : B → bool) (l : list A) :
  g <$> List.filter (λ x, f (g x)) l = List.filter f (g <$> l).
Proof.
  induction l as [|x l IH]; [done|].
  rewrite fmap_cons. cbn [List.filter].
  destruct (f (g x)); rewrite ?fmap_cons; by rewrite IH.
Qed.

Lemma filter_remove_one (target : string) (ids : list string) :
  NoDup ids → target ∈ ids →
  S (length (List.filter (λ x, negb (String.eqb x target)) ids)) = length ids.
Proof.
  induction 1 as [|x ids Hx Hids IH]; intros Hin; [by apply elem_of_nil in Hin|].
  simpl. destruct (String.eqb_spec x target) as [->|Hne]; simpl.
  - f_equal. clear IH Hin.
    induction ids as [|y ids IH]; [done|]. simpl.
    destruct (String.eqb_spec y target) as [->|_]; simpl.
    + exfalso. apply Hx. constructor.
    + f_equal. apply IH; [|by apply NoDup_cons in Hids as [_ ?]].
      intros Hin. apply Hx. by constructor.
  - f_equal. apply IH. by apply elem_of_cons in Hin as [?|?].
Qed.

(** Deleting a message removes from the buffer exactly the messages with
    that id, whatever the remote delete answers: the other messages stay, in
    their order, so a buffer that was chronological and free of duplicate ids
    stays so, and it shrinks by one when the id was there. *)
Theorem handleDeleteMessage_removes closure u activeId messageId deleteError st :
  user closure = Some u →
  strOrUndefined (activeChatSessionId closure) = Some activeId →
  let st' := handleDeleteMessage closure messageId deleteError st in
  (∀ msg, msg ∈ chatMessages st' ↔ msg ∈ chatMessages st ∧ m_id msg ≠ messageId)
  ∧ (Sorted Z.le (m_timestamp <$> chatMessages st) →
     Sorted Z.le (m_timestamp <$> chatMessages st'))
  ∧ (NoDup (m_id <$> chatMessages st) →
     NoDup (m_id <$> chatMessages st')
     ∧ (messageId ∈ m_id <$> chatMessages st →
        S (length (chatMessages st')) = length (chatMessages st))).
Proof.
  intros Hu Hactive st'. subst st'. unfold handleDeleteMessage.
  rewrite Hu, Hactive. simpl. split; [|split].
  - intros msg. rewrite list_elem_of_In, filter_In, <- list_elem_of_In.
    destruct (String.eqb_spec (m_id msg) messageId); simpl.
    + split; [by intros [_ ?] | by intros [_ ?]].
    + split; intros [? _]; by split.
  - intros Hsorted'. apply StronglySorted_Sorted.
    assert (Hsorted : StronglySorted Z.le (m_timestamp <$> chatMessages st)).
    { apply Sorted_StronglySorted; [|done]. intros a b c. lia. }
    clear Hsorted'.
    set (keep := λ msg : Message, negb (String.eqb (m_id msg) messageId)).
    assert (Hsub : StronglySorted (λ a b, (m_timestamp a ≤ m_timestamp b)%Z)
                     (List.filter keep (chatMessages st))).
    { apply StronglySorted_filter.
      clear -Hsorted. induction (chatMessages st) as [|msg msgs IH]; [constructor|].
      rewrite fmap_cons in Hsorted. apply StronglySorted_inv in Hsorted as [Hmsgs Hmsg].
      constructor; [by apply IH|]. rewrite Forall_fmap in Hmsg.
      eapply Forall_impl; [exact Hmsg|]. by intros b Hb. }
    by apply (StronglySorted_fmap m_timestamp _ Z.le) in Hsub.
  - intros Hnodup.
    rewrite <- (length_fmap m_id (chatMessages st)).
    rewrite <- (length_fmap m_id (List.filter _ _)).
    rewrite (filter_fmap_comm m_id (λ x, negb (String.eqb x messageId))).
    split.
    + by apply NoDup_ListNoDup, List.NoDup_filter, NoDup_ListNoDup.
    + intros Hin. by apply filter_remove_one.
Qed.


Lemma strOrUndefined_Some o x :
  strOrUndefined o = Some x ↔ o = Some x ∧ truthy o = true.
Proof.
  unfold strOrUndefined. destruct (truthy o); split.
  - by intros Ho.
  - by intros [Ho _].
  - done.
  - by intros [_ ?].
Qed.

(** ** How a regenerate or retry ends *)

Lemma getAIResponse_update_outcome
    closure userMessageContent u sessionId attachedDocumentIds attachedNoteIds
    target w st :
  target ≠ "" →
  strOrUndefined (Some sessionId) = Some sessionId →
  regenerateOutcome target w (chatMessages st)
    (chatMessages
       (_getAIResponse closure userMessageContent (Some u) sessionId
          attachedDocumentIds attachedNoteIds (Some target) None None w st)).
Proof.
  intros Htarget Hsession. unfold _getAIResponse. rewrite Hsession.
  unfold tryGetAIResponse.
  pose proof (buildChatHistory_hooks closure userMessageContent (Some target)
                None None (setIsAILoading true st)) as Hhooks.
  destruct (buildChatHistory _ _ _ _ _ _) as [chatHistory st1]. simpl in Hhooks.
  destruct Hhooks as (_ & _ & _ & Hmessages & _).
  assert (Htruthy : strOrUndefined (Some target) = Some target).
  { unfold strOrUndefined. simpl. by destruct (String.eqb_spec target ""). }
  assert (Hcatch : ∀ message st2,
    chatMessages st2 = chatMessages st →
    ¬ aiSucceeded (Some target) w →
    regenerateOutcome target w (chatMessages st)
      (chatMessages
         (setIsAILoading false
            (catchGetAIResponse userMessageContent (Some target) message w st2)))).
  { intros message st2 Hst2 Hfailed. right. split; [done|].
    unfold catchGetAIResponse. rewrite Htruthy.
    eexists. simpl. by rewrite Hst2. }
  unfold aiSucceeded in Hcatch. rewrite Htruthy in Hcatch.
  destruct (invoked w) as [message|[message|] [response|]] eqn:Hinvoked.
  - apply Hcatch; [done|]. by intros [(response & ? & _) _].
  - apply Hcatch; [done|]. by intros [(response' & ? & _) _].
  - apply Hcatch; [done|]. by intros [(response' & ? & _) _].
  - destruct (strOrUndefined response) as [aiResponseContent|] eqn:Hresponse.
    + apply strOrUndefined_Some in Hresponse as [-> Hne].
      rewrite Htruthy.
      destruct (updateDbError w) eqn:Hdb.
      * apply Hcatch; [done|]. by intros [_ ?].
      * left. split.
        { unfold aiSucceeded. rewrite Htruthy, Hinvoked. split; [|done].
          exists aiResponseContent. split; [done|]. intros ->. done. }
        exists aiResponseContent. split; [done|]. simpl. by rewrite Hmessages.
    + apply Hcatch; [done|]. intros [(response' & [= ->] & Hne) _].
      unfold strOrUndefined in Hresponse. simpl in Hresponse.
      by destruct (String.eqb_spec response' "").
  - apply Hcatch; [done|]. by intros [(response' & ? & _) _].
Qed.

Lemma regenerateOutcome_after_placeholder target thinkingAt w before after :
  regenerateOutcome target w (markThinking target thinkingAt before) after →
  regenerateOutcome target w before after.
Proof.
  unfold markThinking.
  intros [[Hok (reply & Hinvoked & ->)]|[Hfailed (reason & ->)]]; [left|right];
    (split; [done|]); eexists; rewrite updateMessage_twice; eauto.
Qed.

(** A retry of a failed message never leaves the placeholder behind: with
    a signed-in user, an active session and the user message found in the
    buffer, it ends with the failed message carrying the AI's answer and no
    error flag when the call and the save succeeded, and otherwise carrying
    an error text with the flag set. *)
Theorem retry_ends_with_answer_or_error
    closure originalUserMessageContent failedAiMessageId thinkingAt w st
    u activeId lastUserMessage :
  user closure = Some u →
  strOrUndefined (activeChatSessionId closure) = Some activeId →
  findLast (λ msg, bool_decide (m_role msg = role_user)
                   && String.eqb (m_content msg) originalUserMessageContent)
           (chatMessages closure) = Some lastUserMessage →
  failedAiMessageId ≠ "" →
  regenerateOutcome failedAiMessageId w (chatMessages st)
    (chatMessages
       (handleRetryFailedMessage closure originalUserMessageContent
          failedAiMessageId thinkingAt w st)).
Proof.
  intros Huser Hactive Hlast Htarget. unfold handleRetryFailedMessage.
  rewrite Huser, Hactive, Hlast.
  apply regenerateOutcome_after_placeholder with thinkingAt.
  apply (getAIResponse_update_outcome closure originalUserMessageContent u activeId
           _ _ failedAiMessageId w
           (setChatMessages (markThinking failedAiMessageId thinkingAt) st));
    [done|].
  apply strOrUndefined_Some in Hactive as [Ha Htruthy].
  rewrite Ha in Htruthy. by apply strOrUndefined_Some.
Qed.

(** Regenerating the last answer ends the same way: with a signed-in user,
    an active session, and a user and an assistant message in the buffer,
    the last assistant message carries the new answer and no error flag, or
    an error text with the flag set. *)
Theorem regenerate_ends_with_answer_or_error
    closure lastUserMessageContent thinkingAt w st
    u activeId lastUserMessage lastAssistantMessage :
  user closure = Some u →
  strOrUndefined (activeChatSessionId closure) = Some activeId →
  findLast (λ msg, bool_decide (m_role msg = role_user)) (chatMessages closure)
    = Some lastUserMessage →
  findLast (λ msg, bool_decide (m_role msg = role_assistant)) (chatMessages closure)
    = Some lastAssistantMessage →
  m_id lastAssistantMessage ≠ "" →
  regenerateOutcome (m_id lastAssistantMessage) w (chatMessages st)
    (chatMessages
       (handleRegenerateResponse closure lastUserMessageContent thinkingAt w st)).
Proof.
  intros Huser Hactive Hlast Hanswer Htarget. unfold handleRegenerateResponse.
  rewrite Huser, Hactive, Hlast, Hanswer.
  apply regenerateOutcome_after_placeholder with thinkingAt.
  apply (getAIResponse_update_outcome closure lastUserMessageContent u activeId
           _ _ (m_id lastAssistantMessage) w
           (setChatMessages (markThinking (m_id lastAssistantMessage) thinkingAt) st));
    [done|].
  apply strOrUndefined_Some in Hactive as [Ha Htruthy].
  rewrite Ha in Htruthy. by apply strOrUndefined_Some.
Qed.

(** ** What the context builder selects *)

Lemma append_empty (a b : string) : a ++ b = "" ↔ a = "" ∧ b = "".
Proof.
  split; [|by intros [-> ->]].
  destruct a as [|c a]; [intros Hb; split; [done|exact Hb]|].
  by rewrite append_cons.
Qed.

Lemma contextSection_empty {A} (heading : string) (block : A → string)
    (selected : list A) (c : ascii) (rest : string) :
  heading = String c rest →
  contextSection heading block selected = "" ↔ selected = [].
Proof.
  intros ->. destruct selected as [|x xs]; [done|]. simpl.
  rewrite append_cons. split; intros; done.
Qed.

Lemma includes_sameIds ids1 ids2 x :
  sameIds ids1 ids2 → includes (arrOrElse ids1) x = includes (arrOrElse ids2) x.
Proof. intros Hsame. unfold includes. apply bool_decide_ext, Hsame. Qed.

(** The context is empty exactly when no document and no note of the
    collections is selected, so ids that name nothing leave no trace; and the
    context depends on the id lists only as sets: the order of the ids and
    repeated ids make no difference (the blocks follow the order of the
    collections). *)
Theorem buildRichContext_selection dIds nIds allDocuments allNotes st :
  (fst (buildRichContext dIds nIds allDocuments allNotes st) = ""
   ↔ selectDocuments dIds allDocuments = [] ∧ selectNotes nIds allNotes = [])
  ∧ (∀ dIds' nIds',
       sameIds dIds dIds' → sameIds nIds nIds' →
       fst (buildRichContext dIds' nIds' allDocuments allNotes st)
       = fst (buildRichContext dIds nIds allDocuments allNotes st)).
Proof.
  simpl. split.
  - rewrite contextText_sections, append_empty.
    by rewrite (contextSection_empty "DOCUMENTS:" _ _ "D" "OCUMENTS:"),
               (contextSection_empty "NOTES:" _ _ "N" "OTES:").
  - intros dIds' nIds' Hd Hn. rewrite !contextText_sections.
    f_equal; f_equal.
    + unfold selectDocuments. apply List.filter_ext. intros doc.
      symmetry. by apply includes_sameIds.
    + unfold selectNotes. apply List.filter_ext. intros note.
      symmetry. by apply includes_sameIds.
Qed.

(** ** The tab of the current path *)

(** The tab derived from the path is always one of the six tabs, and it is
    the tab that [memoizedOnTabChange] navigated to, also when the path goes
    on after the tab's segment. *)
Theorem currentActiveTab_round_trip :
  (∀ pathname, currentActiveTab pathname ∈ tabs)
  ∧ (∀ tab, tab ∈ tabs →
       currentActiveTab (tabPath tab) = tab
       ∧ ∀ rest, currentActiveTab (tabPath tab ++ "/" ++ rest) = tab).
Proof.
  split.
  - intros pathname. unfold currentActiveTab, tabs.
    destruct (splitOn "/" pathname !! 1%nat) as [path|]; [|by constructor].
    repeat (match goal with |- context [String.eqb ?a ?b] => destruct (String.eqb a b) end;
            [by repeat constructor|]).
    by constructor.
  - intros tab Htab. unfold tabs in Htab.
    repeat (apply elem_of_cons in Htab as [->|Htab]; [split; [reflexivity|intros rest; reflexivity]|]).
    by apply elem_of_nil in Htab.
Qed.

(** ** The audio poller while a job runs *)

Section poller_more.

Import NoteEditor.

Lemma samePanel_refl s : samePanel s s.
Proof. by repeat split. Qed.

Lemma samePanel_trans a b c : samePanel a b → samePanel b c → samePanel a c.
Proof.
  intros (? & ? & ? & ?) (? & ? & ? & ?). repeat split; congruence.
Qed.

Lemma clearPollInterval_panel c s : samePanel s (clearPollInterval c s).
Proof.
  unfold clearPollInterval. destruct (c_pollInterval c) as [h|]; [|apply samePanel_refl].
  destruct (h =? 0)%nat; by repeat split.
Qed.

Lemma pollJobStatus_panel c s : samePanel s (pollJobStatus c s).
Proof.
  unfold pollJobStatus.
  destruct (strOrUndefined _); [destruct (c_userProfile c)|]; by repeat split.
Qed.

Lemma runPollingEffect_panel s : samePanel s (runPollingEffect s).
Proof.
  unfold runPollingEffect.
  pose proof (clearPollInterval_panel (pollingEffect s) s) as Hclear.
  set (s1 := clearPollInterval (pollingEffect s) s) in *. clearbody s1.
  destruct (strOrUndefined (audioProcessingJobId s1)).
  - eapply samePanel_trans; [exact Hclear|].
    eapply samePanel_trans; [|apply pollJobStatus_panel].
    destruct Hclear as (? & ? & ? & ?). by repeat split.
  - destruct Hclear as (? & ? & ? & ?). by repeat split.
Qed.

(** The render after a state change shows the changed state: the effect
    touches no hook of the panel. *)
Lemma commit_panel s after : samePanel after (commit s after).
Proof.
  unfold commit. case_bool_decide; [apply samePanel_refl | apply runPollingEffect_panel].
Qed.

Lemma stopPolling_panel c s :
  audioFlags (stopPolling c s) = [false; false; false; false; false]
  ∧ content (stopPolling c s) = content s
  ∧ translatedContent (stopPolling c s) = translatedContent s
  ∧ noteUpdates (stopPolling c s) = noteUpdates s.
Proof.
  unfold stopPolling.
  set (s1 := mkEditorState _ _ _ _ _ _ _ _ _ _ _ _ _ _ _).
  destruct (clearPollInterval_panel c s1) as (-> & -> & -> & ->). done.
Qed.







End poller_more.


(** The resolution of a status read with a terminal outcome lowers every
    flag of the audio panel; on [completed] it puts the transcript (or the
    stand-in text) in the editor and reports it, with the summary and the
    document id, through one call of [onNoteUpdate]; on an error or a failed
    read the note text stays and nothing is reported. *)
Theorem terminal_response_resets_panel s i c r :
  NoteEditor.inFlight s !! i = Some c →
  NoteEditor.terminal r →
  let s' := NoteEditor.step (NoteEditor.Respond i r) s in
  audioFlags s' = [false; false; false; false; false]
  ∧ match r with
    | NoteEditor.ReadRow (Some audioResult) =>
        if String.eqb (NoteEditor.status audioResult) "completed" then
          NoteEditor.content s'
          = strOrElse (NoteEditor.transcript audioResult) "No transcription available."
          ∧ NoteEditor.translatedContent s'
            = strOrUndefined (NoteEditor.translated_content audioResult)
          ∧ NoteEditor.noteUpdates s'
            = (NoteEditor.noteUpdates s ++
                 [NoteEditor.mkNoteUpdate
                    (strOrElse (NoteEditor.transcript audioResult) "")
                    (strOrElse (NoteEditor.summary audioResult) "No summary available.")
                    (strOrUndefined (NoteEditor.document_id audioResult))])%list
        else
          NoteEditor.content s' = NoteEditor.content s
          ∧ NoteEditor.translatedContent s' = NoteEditor.translatedContent s
          ∧ NoteEditor.noteUpdates s' = NoteEditor.noteUpdates s
    | _ =>
        NoteEditor.content s' = NoteEditor.content s
        ∧ NoteEditor.translatedContent s' = NoteEditor.translatedContent s
        ∧ NoteEditor.noteUpdates s' = NoteEditor.noteUpdates s
    end.
Proof.
  intros Hi Hterminal s'. subst s'. simpl. rewrite Hi.
  set (s1 := NoteEditor.mkEditorState _ _ _ _ _ _ _ _ _ _ _ _ _ _ _).
  destruct (commit_panel s (NoteEditor.pollJobStatusResolved c r s1))
    as (-> & -> & -> & ->).
  unfold NoteEditor.pollJobStatusResolved.
  destruct r as [message|[audioResult|]];
    [exact (stopPolling_panel c s1)| |done].
  destruct (String.eqb_spec (NoteEditor.status audioResult) "completed") as [Hc|Hc].
  - set (s2 := NoteEditor.mkEditorState _ _ _ _ _ _ _ _ _ _ _ _ _ _ _).
    exact (stopPolling_panel c s2).
  - destruct (String.eqb_spec (NoteEditor.status audioResult) "error") as [He|He].
    + exact (stopPolling_panel c s1).
    + by destruct Hterminal.
Qed.


(** ** Instances *)

(** Two texts with the same escaped form. *)
Lemma escapeHtml_injective_witness :
  escapeHtml "a<b & c" = "a&lt;b &amp; c" ∧ "a<b & c" = "a<b & c".
Proof.
  split; [reflexivity|].
  apply (escapeHtml_injective "a<b & c" "a<b & c"). reflexivity.
Defined.

(** Two tags, one of them with a space inside. *)
Lemma handleSave_tags_round_trip_witness :
  tagsField ["work"; "to do"] = "work, to do"
  ∧ saved_tags (handleSave "Title" "text" "general" (tagsField ["work"; "to do"]) 5)
    = ["work"; "to do"].
Proof.
  split; [reflexivity|].
  apply (handleSave_tags_round_trip "Title" "text" "general" ["work"; "to do"] 5).
  repeat constructor; discriminate.
Defined.


(** The store refuses the second question of the sample chat. *)
Lemma handleSubmit_unsaved_message_no_ai_call_witness :
  let st' := handleSubmit sampleChat "and then?" None None None None None
               sampleUnsavedWorld sampleChat in
  (is_Some (strOrUndefined (activeChatSessionId sampleChat)) →
   chatMessages st' = chatMessages sampleChat)
  ∧ isAILoading st' = isAILoading sampleChat
  ∧ ∃ trace,
      effects st'
      = (effects sampleChat ++ [SetIsSubmittingUserMessage true] ++ trace
           ++ [SetIsSubmittingUserMessage false])%list
      ∧ Forall quiet trace.
Proof.
  apply (handleSubmit_unsaved_message_no_ai_call sampleChat "and then?" None None None
           None None sampleUnsavedWorld sampleChat "insert refused");
    reflexivity.
Defined.

(** Three spaces and nothing attached. *)
Lemma handleSubmit_blank_is_dropped_witness :
  handleSubmit sampleChat "   " None (Some []) None None None sampleSubmitWorld sampleChat
  = sampleChat.
Proof.
  apply (handleSubmit_blank_is_dropped sampleChat "   " None (Some []) None None None
           sampleSubmitWorld sampleChat); try reflexivity.
  repeat constructor.
Defined.

(** An answer in the older of two sessions moves it to the front. *)
Lemma successful_call_resorts_sessions_witness :
  let st' :=
    _getAIResponse sampleTwoSessions "hello" (Some (mkUser "u1")) "s0" ["d1"] []
      None None None sampleAIWorld sampleTwoSessions in
  s_id <$> chatSessions st' ≡ₚ ["s1"; "s0"]
  ∧ StronglySorted recentFirst (chatSessions st')
  ∧ Forall (λ s, if String.eqb (s_id s) "s0"
                 then s_last_message_at s = 102%Z ∧ s_document_ids s = ["d1"]
                 else s ∈ chatSessions sampleTwoSessions) (chatSessions st').
Proof.
  apply (successful_call_resorts_sessions sampleTwoSessions "hello" (mkUser "u1") "s0"
           ["d1"] [] None None None sampleAIWorld sampleTwoSessions).
  - discriminate.
  - split.
    + exists "hi there". split; [reflexivity | discriminate].
    + eexists. reflexivity.
Defined.

(** Deleting the active one of two sessions selects the other. *)
Lemma deleteChatSession_selects_most_recent_witness :
  let st' := deleteChatSession sampleTwoSessions "s1" None (Failed "offline")
               sampleTwoSessions in
  ∃ mostRecent,
    activeChatSessionId st' = Some (s_id mostRecent)
    ∧ mostRecent ∈ chatSessions sampleTwoSessions
    ∧ s_id mostRecent ≠ "s1"
    ∧ (∀ s, s ∈ chatSessions sampleTwoSessions → s_id s ≠ "s1" →
         (s_last_message_at s ≤ s_last_message_at mostRecent)%Z)
    ∧ chatMessages st' = chatMessages sampleTwoSessions.
Proof.
  apply (deleteChatSession_selects_most_recent sampleTwoSessions (mkUser "u1") "s1"
           (Failed "offline") sampleTwoSessions
           (mkChatSession "s0" "Older chat" 40 40 50 [])).
  - reflexivity.
  - reflexivity.
  - simpl. lia.
  - apply list_elem_of_further, list_elem_of_here.
  - discriminate.
Defined.

(** Deleting the answer of the sample chat. *)
Lemma handleDeleteMessage_removes_witness :
  let st' := handleDeleteMessage sampleChat "m2" (Some "offline") sampleChat in
  (∀ msg, msg ∈ chatMessages st' ↔ msg ∈ chatMessages sampleChat ∧ m_id msg ≠ "m2")
  ∧ (Sorted Z.le (m_timestamp <$> chatMessages sampleChat) →
     Sorted Z.le (m_timestamp <$> chatMessages st'))
  ∧ (NoDup (m_id <$> chatMessages sampleChat) →
     NoDup (m_id <$> chatMessages st')
     ∧ ("m2" ∈ m_id <$> chatMessages sampleChat →
        S (length (chatMessages st')) = length (chatMessages sampleChat))).
Proof.
  apply (handleDeleteMessage_removes sampleChat (mkUser "u1") "s1" "m2" (Some "offline")
           sampleChat); reflexivity.
Defined.

(** The retry of the sample answer with an AI that answers. *)
Lemma retry_ends_with_answer_or_error_witness :
  regenerateOutcome "m2" sampleAIWorld [sampleQuestion; sampleAnswer]
    (chatMessages
       (handleRetryFailedMessage sampleChat "hello" "m2" 150 sampleAIWorld sampleChat)).
Proof.
  apply (retry_ends_with_answer_or_error sampleChat "hello" "m2" 150%Z sampleAIWorld
           sampleChat (mkUser "u1") "s1" sampleQuestion).
  - reflexivity.
  - reflexivity.
  - reflexivity.
  - discriminate.
Defined.

(** Regenerating the sample answer with an AI that fails. *)
Lemma regenerate_ends_with_answer_or_error_witness :
  regenerateOutcome "m2" sampleFailingAIWorld [sampleQuestion; sampleAnswer]
    (chatMessages
       (handleRegenerateResponse sampleChat "hello" 150 sampleFailingAIWorld sampleChat)).
Proof.
  apply (regenerate_ends_with_answer_or_error sampleChat "hello" 150%Z
           sampleFailingAIWorld sampleChat (mkUser "u1") "s1" sampleQuestion sampleAnswer).
  - reflexivity.
  - reflexivity.
  - reflexivity.
  - reflexivity.
  - discriminate.
Defined.


(** The first status read of the job reports [completed]. *)
Lemma terminal_response_resets_panel_witness :
  let s' := NoteEditor.step (NoteEditor.Respond 0 sampleCompleted) samplePolling in
  NoteEditor.isProcessingAudio samplePolling = true
  ∧ audioFlags s' = [false; false; false; false; false]
  ∧ NoteEditor.content s' = "transcript"
  ∧ NoteEditor.translatedContent s' = None
  ∧ NoteEditor.noteUpdates s'
    = [NoteEditor.mkNoteUpdate "transcript" "summary" (Some "doc-1")].
Proof.
  intros s'. split; [reflexivity|].
  apply (terminal_response_resets_panel samplePolling 0
           (NoteEditor.mkClosure (Some "job-1") (Some "u1") (Some 1)) sampleCompleted).
  - reflexivity.
  - left. reflexivity.
Defined.

(** An answer in the active session with one document attached. *)
Lemma selection_follows_last_exchange_witness :
  selectedDocumentIds sampleChat = []
  ∧ selectedDocumentIds
      (selectedDocumentsEffect
         (_getAIResponse sampleChat "and then?" (Some (mkUser "u1")) "s1" ["d1"] []
            None None None sampleAIWorld sampleChat))
    = ["d1"].
Proof.
  split; [reflexivity|].
  apply (selection_follows_last_exchange sampleChat "and then?" (mkUser "u1") "s1"
           ["d1"] [] None None None sampleAIWorld sampleChat).
  - discriminate.
  - split.
    + exists "hi there". split; [reflexivity | discriminate].
    + eexists. reflexivity.
  - reflexivity.
  - apply list_elem_of_here.
Defined.
